(** * The docstring-contract enforcer ([tools/enforce_docstrings.py])

    A shallow embedding of the enforcer: the escape-token scan, the
    export-list and import-map extraction over the syntax tree, module
    resolution over the file system, the three tier checks, and the
    driver loop of [main] with its report.

    Modelling choices, fixed here once:
    - Python [str] is [string], for text in ASCII: there [str.lower],
      [str.isspace] and [str.strip] are Python's.  Python lowers and
      strips beyond ASCII as well, and lowering can then lengthen a
      line; a statement that would not survive it carries
      [str.isascii] as a hypothesis.
    - [ast.parse] and [Path.read_text] are not re-implemented: a source
      file is given by the syntax tree [ast.parse] returns for it (or
      the [SyntaxError] it raises) and by its [splitlines()].
    - [ast.get_docstring] and [inspect.cleandoc] follow the standard
      library (the algorithm of CPython up to 3.12).
    - [SystemExit] and uncaught exceptions are values of [result].
    - A [Path] is an absolute POSIX path, the list of its components
      below the file-system root [/]; what [relative_to] returns is the
      list of the components that remain.  [p / s] starts again at the
      root when [s] is absolute.  There are no symbolic links:
      [Path.resolve] removes the [.] and [..] components and nothing
      else.
    - [ROOT] is a directory, the script being a file below it.
    - [argparse] and git are outside: [main] receives the parsed
      arguments, and the file lists git answers with are part of the
      [World]. *)

From Stdlib Require Import ZArith Ascii.
From stdpp Require Import base option list sorting gmap strings pretty.

Local Open Scope Z_scope.

(** ** Exceptions *)

Inductive error :=
| SystemExit (msg : string)
| Uncaught (exc : string).

Inductive result (A : Type) :=
| Ok (a : A)
| Raise (e : error).
Arguments Ok {A} a.
Arguments Raise {A} e.

Global Instance result_ret : MRet result := λ A a, Ok a.
Global Instance result_bind : MBind result := λ A B k r,
  match r with
  | Ok a => k a
  | Raise e => Raise e
  end.

(** [for x in xs: acc = body(acc, x)], leaving at the first exception. *)
Fixpoint for_each {A S} (body : S → A → result S) (xs : list A) (acc : S)
  : result S :=
  match xs with
  | [] => Ok acc
  | x :: xs' => acc' ← body acc x; for_each body xs' acc'
  end.

(** A loop body that only ever appends what it finds for [x] alone. *)
Definition accumulates {A V} (body : list V → A → result (list V)) : Prop :=
  ∀ acc x, body acc x = (body [] x ≫= λ vs, Ok (acc ++ vs)).

Fixpoint mapM_result {A B} (f : A → result B) (xs : list A) : result (list B) :=
  match xs with
  | [] => Ok []
  | x :: xs' => y ← f x; ys ← mapM_result f xs'; Ok (y :: ys)
  end.

(** ** Python [str] operations *)

Module str.

(** [c.lower()] of an ASCII character; other characters are left as
    they are. *)
Definition lower_char (c : ascii) : ascii :=
  let n := N_of_ascii c in
  if ((65 <=? n) && (n <=? 90))%N then ascii_of_N (n + 32) else c.

Fixpoint lower (s : string) : string :=
  match s with
  | EmptyString => EmptyString
  | String c s' => String (lower_char c) (lower s')
  end.

Definition len (s : string) : Z := Z.of_nat (String.length s).

Definition startswith (s p : string) : bool := String.prefix p s.

(** [s.find(sub)]: the lowest index where [sub] occurs, or [-1]. *)
Fixpoint find (s sub : string) : Z :=
  if String.prefix sub s then 0
  else match s with
       | EmptyString => -1
       | String _ s' =>
           let r := find s' sub in
           if r =? -1 then -1 else r + 1
       end.

Fixpoint drop (n : nat) (s : string) : string :=
  match n, s with
  | O, _ => s
  | S _, EmptyString => EmptyString
  | S n', String _ s' => drop n' s'
  end.

(** [s[i:]] for a non-negative [i]. *)
Definition slice_from (s : string) (i : Z) : string := drop (Z.to_nat i) s.

(** The ASCII characters for which [str.isspace] holds. *)
Definition isspace (c : ascii) : bool :=
  let n := N_of_ascii c in
  ((9 <=? n) && (n <=? 13) || (28 <=? n) && (n <=? 32))%N.

Fixpoint lstrip (s : string) : string :=
  match s with
  | EmptyString => EmptyString
  | String c s' => if isspace c then lstrip s' else s
  end.

Definition rstrip (s : string) : string :=
  String.rev (lstrip (String.rev s)).

Definition strip (s : string) : string := rstrip (lstrip s).

(** [sep.join(parts)] *)
Fixpoint join (sep : string) (parts : list string) : string :=
  match parts with
  | [] => ""
  | [p] => p
  | p :: ps => p +:+ sep +:+ join sep ps
  end.

(** [s.split(sep)] for a one-character separator: never empty. *)
Fixpoint split_go (sep : ascii) (cur : string) (s : string) : list string :=
  match s with
  | EmptyString => [String.rev cur]
  | String c s' =>
      if Ascii.eqb c sep then String.rev cur :: split_go sep "" s'
      else split_go sep (String c cur) s'
  end.
Definition split (s : string) (sep : ascii) : list string := split_go sep "" s.

(** [s.replace(old, new)]: every non-overlapping occurrence, left to
    right.  [skip] counts the characters of a match still to pass. *)
Fixpoint replace_go (old new : string) (skip : nat) (s : string) : string :=
  match s with
  | EmptyString => EmptyString
  | String c s' =>
      match skip with
      | S k => replace_go old new k s'
      | O =>
          if String.prefix old s
          then new +:+ replace_go old new (String.length old - 1) s'
          else String c (replace_go old new O s')
      end
  end.
(** The sources only replace a non-empty [old]. *)
Definition replace (s old new : string) : string := replace_go old new O s.

Definition endswith (s suffix : string) : bool :=
  String.prefix (String.rev suffix) (String.rev s).

(** [s.isascii()] *)
Fixpoint isascii (s : string) : bool :=
  match s with
  | EmptyString => true
  | String c s' => (N_of_ascii c <? 128)%N && isascii s'
  end.

End str.

(** ** The escape mechanism *)

Definition ESCAPE_TOKENS : list string :=
  ["noqa: DOC"; "docstring-contract: ignore"].

(** The [for tok in ESCAPE_TOKENS] loop of [has_escape_with_reason]: a
    token that does not occur is passed over ([continue]); the first one
    that occurs decides ([return len(after) > 0]). *)
Fixpoint escape_scan (def_line lower : string) (toks : list string) : bool :=
  match toks with
  | [] => false
  | tok :: rest =>
      let idx := str.find lower (str.lower tok) in
      if idx =? -1 then escape_scan def_line lower rest
      else
        let after := str.strip (str.slice_from def_line (idx + str.len tok)) in
        0 <? str.len after
  end.

Definition has_escape_with_reason (def_line : string) : bool :=
  escape_scan def_line (str.lower def_line) ESCAPE_TOKENS.

Definition is_public_name (name : string) : bool :=
  negb (str.startswith name "_").

(** ** The syntax tree ([ast]) *)

#[local] Set Warnings "-register-all".

Module ast.

(** The value of an [ast.Constant]: a [str], or anything else. *)
Inductive constant :=
| Str (s : string)
| NotStr.

Inductive expr :=
| Constant (value : constant)
| Name (id : string)
| List (elts : list expr)
| Tuple (elts : list expr)
| OtherExpr.

Record alias := Alias { name : string; asname : option string }.

Inductive stmt :=
| FunctionDef (name : string) (lineno : Z) (body : list stmt)
| AsyncFunctionDef (name : string) (lineno : Z) (body : list stmt)
| ClassDef (name : string) (lineno : Z) (body : list stmt)
| Assign (targets : list expr) (value : expr)
| ImportFrom (module : option string) (names : list alias) (level : Z)
| Expr (value : expr)
| OtherStmt.

Record Module := mkModule { body : list stmt }.

(** [str.expandtabs()] with the default tab size of 8. *)
Fixpoint expandtabs_go (col : nat) (s : string) : string :=
  match s with
  | EmptyString => EmptyString
  | String c s' =>
      if Ascii.eqb c "009" then
        let incr := (8 - col `mod` 8)%nat in
        String.app (str.join "" (replicate incr " "))
                   (expandtabs_go (col + incr)%nat s')
      else if Ascii.eqb c "010" || Ascii.eqb c "013" then
        String c (expandtabs_go 0%nat s')
      else String c (expandtabs_go (S col) s')
  end.
Definition expandtabs : string → string := expandtabs_go 0%nat.

(** The [margin] of [inspect.cleandoc]: the least indentation of the
    non-blank lines after the first; [None] stands for [sys.maxsize]. *)
Fixpoint margin_of (lines : list string) : option nat :=
  match lines with
  | [] => None
  | line :: rest =>
      let content := String.length (str.lstrip line) in
      let m := margin_of rest in
      if (content =? 0)%nat then m
      else
        let indent := (String.length line - content)%nat in
        Some (from_option (Nat.min indent) indent m)
  end.

(** [while lines and not lines[0]: lines.pop(0)] *)
Fixpoint drop_blank_head (lines : list string) : list string :=
  match lines with
  | "" :: rest => drop_blank_head rest
  | _ => lines
  end.

(** [inspect.cleandoc] *)
Definition cleandoc (doc : string) : string :=
  let lines := str.split (expandtabs doc) "010" in
  let lines :=
    match lines with
    | [] => []
    | first :: rest =>
        str.lstrip first ::
        match margin_of rest with
        | Some margin => str.drop margin <$> rest
        | None => rest
        end
    end in
  let lines := reverse (drop_blank_head (reverse lines)) in
  let lines := drop_blank_head lines in
  str.join (String "010" "") lines.

(** [ast.get_docstring] on the [body] of a module, function or class. *)
Definition get_docstring (body : list stmt) : option string :=
  match body with
  | Expr (Constant (Str text)) :: _ => Some (cleandoc text)
  | _ => None
  end.

End ast.

(** Truth value of an [Optional[str]]: [None] and [""] are falsy. *)
Definition truthy (o : option string) : bool :=
  match o with
  | Some s => negb (bool_decide (s = ""))
  | None => false
  end.

(** [o or default] on an [Optional[str]]. *)
Definition or_else (o : option string) (default : string) : string :=
  match o with
  | Some s => if bool_decide (s = "") then default else s
  | None => default
  end.

Definition module_docstring_ok (mod_ : ast.Module) : bool :=
  truthy (ast.get_docstring (ast.body mod_)).

(** ** Top-level definitions, the export list and the import map *)

(** A node of [TopLevelDef = FunctionDef | AsyncFunctionDef | ClassDef]. *)
Record TopLevelDef := mkDef {
  def_name : string;
  def_lineno : Z;
  def_body : list ast.stmt
}.

Definition as_top_level_def (node : ast.stmt) : option TopLevelDef :=
  match node with
  | ast.FunctionDef n l b | ast.AsyncFunctionDef n l b | ast.ClassDef n l b =>
      Some (mkDef n l b)
  | _ => None
  end.

Definition top_level_defs (mod_ : ast.Module) : list TopLevelDef :=
  omap as_top_level_def (ast.body mod_).

Definition find_top_level_symbol (mod_ : ast.Module) (name : string)
  : option TopLevelDef :=
  List.find (λ node, bool_decide (def_name node = name)) (top_level_defs mod_).

Definition msg_all_computed : string :=
  "__all__ must be a literal list/tuple of strings (no computed expressions).".
Definition msg_all_not_literal : string :=
  "__all__ must be a literal list/tuple of strings.".

(** [for elt in val.elts]: collect the string constants, or leave. *)
Fixpoint all_items (elts : list ast.expr) (items : list string)
  : result (list string) :=
  match elts with
  | [] => Ok items
  | ast.Constant (ast.Str value) :: rest => all_items rest (items ++ [value])
  | _ :: _ => Raise (SystemExit msg_all_computed)
  end.

(** What an assignment to [__all__] with right-hand side [val] yields. *)
Definition all_of_value (val : ast.expr) : result (list string) :=
  match val with
  | ast.List elts | ast.Tuple elts => all_items elts []
  | _ => Raise (SystemExit msg_all_not_literal)
  end.

Definition is_all_target (tgt : ast.expr) : bool :=
  match tgt with
  | ast.Name id => bool_decide (id = "__all__")
  | _ => false
  end.

(** [for tgt in node.targets]: the first target named [__all__] decides. *)
Fixpoint all_in_targets (targets : list ast.expr) (val : ast.expr)
  : option (result (list string)) :=
  match targets with
  | [] => None
  | tgt :: rest =>
      if is_all_target tgt then Some (all_of_value val)
      else all_in_targets rest val
  end.

Fixpoint extract_all_body (body : list ast.stmt)
  : result (option (list string)) :=
  match body with
  | [] => Ok None
  | ast.Assign targets val :: rest =>
      match all_in_targets targets val with
      | Some r => items ← r; Ok (Some items)
      | None => extract_all_body rest
      end
  | _ :: rest => extract_all_body rest
  end.

Definition extract_all_list (mod_ : ast.Module) : result (option (list string)) :=
  extract_all_body (ast.body mod_).

(** [for alias in node.names: mapping[exported] = (base, original)] *)
Definition bind_alias (base : string) (mapping : gmap string (string * string))
    (alias : ast.alias) : gmap string (string * string) :=
  let exported := or_else (ast.asname alias) (ast.name alias) in
  let original := ast.name alias in
  <[exported := (base, original)]> mapping.

Definition bind_import (mapping : gmap string (string * string))
    (node : ast.stmt) : gmap string (string * string) :=
  match node with
  | ast.ImportFrom module names level =>
      if 1 <=? level then
        let base := or_else module "" in
        foldl (bind_alias base) mapping names
      else mapping
  | _ => mapping
  end.

Definition import_map_from_init (mod_ : ast.Module)
  : gmap string (string * string) :=
  foldl bind_import ∅ (ast.body mod_).

(** ** Paths and the file system *)

Abbreviation Path := (list string).

Module path.

(** The components a string contributes to a path: split at [/], with
    empty components and [.] dropped. *)
Definition parts_of (s : string) : list string :=
  List.filter (λ c, negb (bool_decide (c = "") || bool_decide (c = ".")))
              (str.split s "/").

(** [p / s]: an absolute [s] replaces [p]. *)
Definition div (p : Path) (s : string) : Path :=
  if str.startswith s "/" then parts_of s else p ++ parts_of s.

(** [str(p)] and [p.as_posix()] of a relative path; [Path()] is ["."]. *)
Definition to_str (rel : Path) : string :=
  match rel with
  | [] => "."
  | _ => str.join "/" rel
  end.

(** [str(p)] of an absolute path. *)
Definition abs_str (p : Path) : string := "/" +:+ str.join "/" p.

(** [p.relative_to(root)]; [None] stands for the [ValueError]. *)
Fixpoint relative_to (p root : Path) {struct root} : option Path :=
  match root, p with
  | [], _ => Some p
  | r :: root', c :: p' =>
      if bool_decide (c = r) then relative_to p' root' else None
  | _ :: _, [] => None
  end.

(** [p.name]: the last component, [""] when there is none. *)
Definition name (p : Path) : string := default "" (last p).

(** [d in p.parents]: [d] is a proper ancestor of [p]. *)
Definition in_parents (d p : Path) : bool :=
  match relative_to p d with
  | Some (_ :: _) => true
  | _ => false
  end.

(** The order of [sorted] on paths: component by component. *)
Fixpoint leb (p q : Path) : bool :=
  match p, q with
  | [], _ => true
  | _ :: _, [] => false
  | a :: p', b :: q' =>
      if bool_decide (a = b) then leb p' q' else bool_decide (String.le a b)
  end.

Definition le (p q : Path) : Prop := leb p q = true.

Global Instance le_dec : RelDecision le.
Proof. intros p q. unfold le. apply _. Defined.

(** [p.resolve()] where nothing is a symbolic link: [.] is dropped and
    [..] steps back to the parent, the root being its own parent. *)
Definition resolve_step (acc : Path) (c : string) : Path :=
  if bool_decide (c = "") || bool_decide (c = ".") then acc
  else if bool_decide (c = "..") then removelast acc
  else acc ++ [c].
Definition resolve (p : Path) : Path := foldl resolve_step [] p.

End path.

Notation "p // s" := (path.div p s) (at level 40, left associativity).

Record SyntaxError := mkSyntaxError {
  err_lineno : string;
  err_offset : string;
  err_msg : string
}.

(** A readable source file: what [ast.parse] makes of its text, and the
    [splitlines()] of its text. *)
Record SourceFile := mkSource {
  parsed : ast.Module + SyntaxError;
  text_lines : list string
}.

Inductive entry :=
| RegularFile (f : SourceFile)
| Directory.

Definition FileSystem := Path → option entry.

Definition exists_ (fs : FileSystem) (p : Path) : bool :=
  bool_decide (is_Some (fs p)).

Definition is_file (fs : FileSystem) (p : Path) : bool :=
  match fs p with
  | Some (RegularFile _) => true
  | _ => false
  end.

Definition is_dir (fs : FileSystem) (p : Path) : bool :=
  match fs p with
  | Some Directory => true
  | _ => false
  end.

Definition read_text (fs : FileSystem) (p : Path) : result SourceFile :=
  match fs p with
  | Some (RegularFile f) => Ok f
  | Some Directory => Raise (Uncaught "IsADirectoryError")
  | None => Raise (Uncaught "FileNotFoundError")
  end.

Definition parse_py (fs : FileSystem) (p : Path) : result ast.Module :=
  src ← read_text fs p;
  match parsed src with
  | inl tree => Ok tree
  | inr e =>
      Raise (SystemExit ("SyntaxError parsing " +:+ path.abs_str p +:+ ":" +:+
                         err_lineno e +:+ ":" +:+ err_offset e +:+ ": " +:+
                         err_msg e))
  end.

Definition get_lines (fs : FileSystem) (p : Path) : result (list string) :=
  src ← read_text fs p; Ok (text_lines src).

(** [lines[lineno - 1] if 1 <= lineno <= len(lines) else ""] *)
Definition def_line_at (lines : list string) (lineno : Z) : string :=
  if (1 <=? lineno) && (lineno <=? Z.of_nat (length lines))
  then default "" (lines !! Z.to_nat (lineno - 1))
  else "".

Definition resolve_module_file (fs : FileSystem) (pkg : Path) (dotted : string)
  : option Path :=
  let rel : Path :=
    if bool_decide (dotted = "") then []
    else path.parts_of (str.join "/" (str.split dotted ".")) in
  let cand1 :=
    if bool_decide (path.to_str rel = "") then None
    else Some (pkg // (path.to_str rel +:+ ".py")) in
  let cand2 := (pkg ++ rel) // "__init__.py" in
  match cand1 with
  | Some c1 => if exists_ fs c1 then Some c1
               else if exists_ fs cand2 then Some cand2 else None
  | None => if exists_ fs cand2 then Some cand2 else None
  end.

(** ** Violations and the three checks *)

Record Violation := mkViolation {
  vpath : Path;
  lineno : Z;
  message : string
}.

Global Instance Violation_eq_dec : EqDecision Violation.
Proof. solve_decision. Defined.

Definition msg_api_module : string :=
  "Missing module docstring (required for public API file).".
Definition msg_api_symbol (name : string) : string :=
  "Public symbol '" +:+ name +:+ "' is missing a docstring.".
Definition msg_core_module : string :=
  "Missing module header docstring (required for core infrastructure module).".
Definition msg_init_module : string :=
  "Missing module docstring in package __init__.py (public file).".
Definition msg_all_missing : string :=
  "__all__ is missing; public files must be explicit.".
Definition msg_private (name : string) : string :=
  "__all__ contains private name '" +:+ name +:+ "'.".
(** The second literal of this message is not an f-string: [{name}] is
    printed as it stands. *)
Definition msg_not_imported (name : string) : string :=
  "__all__ exports '" +:+ name +:+ "' but " +:+
  "it is not imported via a simple 'from .x import {name}' mapping.".
Definition msg_unresolved (mod_dotted name : string) : string :=
  "Cannot resolve module '." +:+ mod_dotted +:+ "' for exported '" +:+ name +:+ "'.".
Definition msg_not_found (name original : string) : string :=
  "Exported '" +:+ name +:+ "' maps to '" +:+ original +:+ "' but symbol not found.".
Definition msg_export_symbol (name : string) : string :=
  "Exported public symbol '" +:+ name +:+ "' is missing a docstring.".

(** [doc = ast.get_docstring(node)] followed by [if doc: continue]. *)
Definition has_doc (node : TopLevelDef) : bool :=
  truthy (ast.get_docstring (def_body node)).

(** The body of the loop over [top_level_defs(tree)] in [check_api_file]. *)
Definition check_api_def (p : Path) (lines : list string)
    (v : list Violation) (node : TopLevelDef) : list Violation :=
  let name := def_name node in
  if negb (is_public_name name) then v
  else if has_doc node then v
  else
    let def_line := def_line_at lines (def_lineno node) in
    if has_escape_with_reason def_line then v
    else v ++ [mkViolation p (def_lineno node) (msg_api_symbol name)].

Definition check_api_file (fs : FileSystem) (p : Path) : result (list Violation) :=
  let v := [] in
  tree ← parse_py fs p;
  lines ← get_lines fs p;
  let v := if negb (module_docstring_ok tree)
           then v ++ [mkViolation p 1 msg_api_module] else v in
  Ok (foldl (check_api_def p lines) v (top_level_defs tree)).

Definition check_core_module (fs : FileSystem) (p : Path) : result (list Violation) :=
  let v := [] in
  tree ← parse_py fs p;
  let v := if negb (module_docstring_ok tree)
           then v ++ [mkViolation p 1 msg_core_module] else v in
  Ok v.

(** The body of the loop over [exported] in [check_init_exports]. *)
Definition check_export (fs : FileSystem) (init_path pkg : Path)
    (imports : gmap string (string * string))
    (v : list Violation) (name : string) : result (list Violation) :=
  if str.startswith name "_" then
    Ok (v ++ [mkViolation init_path 1 (msg_private name)])
  else
    match imports !! name with
    | None => Ok (v ++ [mkViolation init_path 1 (msg_not_imported name)])
    | Some (mod_dotted, original) =>
        match resolve_module_file fs pkg mod_dotted with
        | None =>
            Ok (v ++ [mkViolation init_path 1 (msg_unresolved mod_dotted name)])
        | Some mod_file =>
            mod_tree ← parse_py fs mod_file;
            match find_top_level_symbol mod_tree original with
            | None =>
                Ok (v ++ [mkViolation mod_file 1 (msg_not_found name original)])
            | Some sym =>
                if has_doc sym then Ok v
                else
                  lines ← get_lines fs mod_file;
                  let def_line := def_line_at lines (def_lineno sym) in
                  if has_escape_with_reason def_line then Ok v
                  else Ok (v ++ [mkViolation mod_file (def_lineno sym)
                                             (msg_export_symbol name)])
            end
        end
    end.

Definition check_init_exports (fs : FileSystem) (init_path pkg : Path)
  : result (list Violation) :=
  let v := [] in
  tree ← parse_py fs init_path;
  let v := if negb (module_docstring_ok tree)
           then v ++ [mkViolation init_path 1 msg_init_module] else v in
  exported ← extract_all_list tree;
  match exported with
  | None => Ok (v ++ [mkViolation init_path 1 msg_all_missing])
  | Some exported =>
      let imports := import_map_from_init tree in
      for_each (check_export fs init_path pkg imports) exported v
  end.

(** ** The driver *)

Definition CORE_MODULES : list string :=
  [ "src/diffusion_core/config/load.py";
    "src/diffusion_core/runs/layout.py";
    "src/diffusion_core/executor.py";
    "src/diffusion_core/logging.py";
    "src/diffusion_core/eval/metrics.py";
    "src/diffusion_core/eval/metrics/__init__.py";
    "src/diffusion_core/checkpointing.py";
    "src/diffusion_core/determinism.py" ].

Definition substitute_pkg (paths : list string) (pkg_name : string) : list string :=
  (λ p, str.replace p "src/diffusion_core/" ("src/" +:+ pkg_name +:+ "/")) <$> paths.

(** The scope flags of the command line. *)
Inductive Scope :=
| Staged
| Range (diff_range : string)
| All.

(** The parsed command line: [--pkg] and the scope flag. *)
Record Args := mkArgs {
  arg_pkg : option string;
  arg_scope : Scope
}.

(** What [main] reads from outside: the repository root, the file
    system, the names that [iterdir] enumerates in a directory, the order
    in which [api_dir.rglob("*.py")] enumerates, and the file lists git
    answers with (or the exception of a failed call).  [ROOT] is
    [Path(__file__).resolve().parents[1]], the directory above the one
    that holds the script. *)
Record World := mkWorld {
  ROOT : Path;
  fs : FileSystem;
  listdir : Path → list string;
  rglob_py : Path → list Path;
  changed_files_staged : result (list string);
  changed_files_from_range : string → result (list string);
  ROOT_is_dir : is_dir fs ROOT = true
}.

(** [repr] of a list of plain names, as an f-string prints it. *)
Definition repr_names (names : list string) : string :=
  "[" +:+ str.join ", " ((λ n, "'" +:+ n +:+ "'") <$> names) +:+ "]".

Definition detect_pkg_dir (w : World) : result Path :=
  let src := ROOT w // "src" in
  if negb (exists_ (fs w) src) then
    Raise (SystemExit "Expected a src/ directory at repo root.")
  else if negb (is_dir (fs w) src) then
    Raise (Uncaught "NotADirectoryError")
  else
    let candidates :=
      filter (λ p, is_dir (fs w) p && exists_ (fs w) (p // "__init__.py"))
             ((λ n, src ++ [n]) <$> listdir w src) in
    match candidates with
    | [c] => Ok c
    | [] =>
        Raise (SystemExit ("Could not auto-detect package dir under src/. " +:+
                           "Add src/diffusion_core/__init__.py."))
    | _ =>
        Raise (SystemExit ("Multiple packages under src/: " +:+
                           repr_names (path.name <$> candidates) +:+
                           ". Pass --pkg explicitly."))
    end.

Definition pkg_dir (w : World) (pkg_name : option string) : result Path :=
  if truthy pkg_name then
    let name := default "" pkg_name in
    let p := ROOT w // "src" // name in
    if negb (exists_ (fs w) (p // "__init__.py")) then
      Raise (SystemExit ("--pkg=" +:+ name +:+ " but src/" +:+ name +:+
                         "/__init__.py not found."))
    else Ok p
  else detect_pkg_dir w.

Section driver.
Context (w : World) (pkg : Path).

Definition pkg_name : string := path.name pkg.
Definition core_paths : gset string :=
  list_to_set (substitute_pkg CORE_MODULES pkg_name).
Definition api_dir : Path := pkg // "api".
Definition init_path : Path := pkg // "__init__.py".

(** The candidates of the [--all] sweep, in enumeration order. *)
Definition candidates : list Path :=
  (if exists_ (fs w) api_dir
   then filter (λ p, is_file (fs w) p) (rglob_py w api_dir) else [])
  ++ [init_path]
  ++ filter (λ p, exists_ (fs w) p) ((λ rel, ROOT w // rel) <$> elements core_paths).

(** The files git reports as changed: [if args.diff_range: ... else: ...];
    an empty range string is falsy and falls to the staged changes. *)
Definition changed_files (scope : Scope) : result (list string) :=
  match scope with
  | Range diff_range =>
      if bool_decide (diff_range = "") then changed_files_staged w
      else changed_files_from_range w diff_range
  | _ => changed_files_staged w
  end.

Definition select_targets (scope : Scope) : result (list Path) :=
  match scope with
  | All => Ok (merge_sort path.le (remove_dups (path.resolve <$> candidates)))
  | _ =>
      changed ← changed_files scope;
      Ok ((λ p, ROOT w // p) <$>
          filter (λ p : string, str.endswith p ".py") (changed : list string))
  end.

(** The body of [for t in targets]: route [t] to its tier. *)
Definition check_target (violations : list Violation) (t : Path)
  : result (list Violation) :=
  match path.relative_to t (ROOT w) with
  | None => Ok violations
  | Some rel_parts =>
      let rel := path.to_str rel_parts in
      match path.relative_to init_path (ROOT w) with
      | None => Raise (Uncaught "ValueError")
      | Some init_rel =>
          if bool_decide (rel = path.to_str init_rel) then
            vs ← check_init_exports (fs w) init_path pkg;
            Ok (violations ++ vs)
          else if exists_ (fs w) api_dir && path.in_parents api_dir t then
            vs ← check_api_file (fs w) t;
            Ok (violations ++ vs)
          else if bool_decide (rel ∈ core_paths) then
            vs ← check_core_module (fs w) t;
            Ok (violations ++ vs)
          else Ok violations
      end
  end.

(** The violations [main] has collected when its loop ends. *)
Definition collect (targets : list Path) : result (list Violation) :=
  for_each check_target targets [].

(** One line of the report: [f"- {rel}:{vio.lineno}: {vio.message}"]. *)
Definition report_line (vio : Violation) : result string :=
  match path.relative_to (vpath vio) (ROOT w) with
  | None => Raise (Uncaught "ValueError")
  | Some rel =>
      Ok ("- " +:+ path.to_str rel +:+ ":" +:+ pretty (lineno vio) +:+ ": " +:+
          message vio)
  end.

(** [main] from the materialised paths on: the exit status and the
    violation lines printed. *)
Definition run (scope : Scope) : result (Z * list string) :=
  targets ← select_targets scope;
  violations ← collect targets;
  match violations with
  | [] => Ok (0, [])
  | _ => printed ← mapM_result report_line violations; Ok (1, printed)
  end.

End driver.

Definition main (w : World) (args : Args) : result (Z * list string) :=
  pkg ← pkg_dir w (arg_pkg args);
  run w pkg (arg_scope args).

(** ** Notions of the specification *)

(** The order of the specification on violations: by file path, then by
    line number. *)
Definition violation_le (v1 v2 : Violation) : Prop :=
  if bool_decide (vpath v1 = vpath v2) then lineno v1 ≤ lineno v2
  else path.le (vpath v1) (vpath v2).

Global Instance violation_le_dec : RelDecision violation_le.
Proof. intros v1 v2. unfold violation_le. case_bool_decide; apply _. Defined.

(** The violations of the entry file's header check. *)
Definition init_header (init_path : Path) (tree : ast.Module) : list Violation :=
  if module_docstring_ok tree then []
  else [mkViolation init_path 1 msg_init_module].

(** The world in which git reports [changed] as the staged files. *)
Definition with_staged (w : World) (changed : list string) : World :=
  mkWorld (ROOT w) (fs w) (listdir w) (rglob_py w) (Ok changed)
          (changed_files_from_range w) (ROOT_is_dir w).

(** A statement that assigns to the name [__all__]. *)
Definition assigns_all (node : ast.stmt) : bool :=
  match node with
  | ast.Assign targets _ => existsb is_all_target targets
  | _ => false
  end.

(** The file declares an export list. *)
Definition declares_all (mod_ : ast.Module) : bool :=
  existsb assigns_all (ast.body mod_).

(** The right-hand side of the file's (first) assignment to [__all__]. *)
Definition all_assignment_value (mod_ : ast.Module) : option ast.expr :=
  match List.find assigns_all (ast.body mod_) with
  | Some (ast.Assign _ val) => Some val
  | _ => None
  end.

Definition is_str_constant (e : ast.expr) : bool :=
  match e with
  | ast.Constant (ast.Str _) => true
  | _ => false
  end.

(** A literal list or tuple of string constants. *)
Definition literal_strings (val : ast.expr) : bool :=
  match val with
  | ast.List elts | ast.Tuple elts => forallb is_str_constant elts
  | _ => false
  end.

(** The first statement of a body is a standalone string literal. *)
Definition starts_with_string_literal (body : list ast.stmt) : bool :=
  match body with
  | ast.Expr (ast.Constant (ast.Str _)) :: _ => true
  | _ => false
  end.

(** The escape rule in the words of the specification: some escape token
    occurs in the line, letter case apart, with text other than white
    space after that occurrence.  [lower] runs in step with [line]. *)
Fixpoint occurs_with_reason (line lower tok : string) : bool :=
  (String.prefix tok lower
   && (0 <? str.len (str.strip (str.drop (String.length tok) line))))
  || match line, lower with
     | String _ line', String _ lower' => occurs_with_reason line' lower' tok
     | _, _ => false
     end.

Definition escaped_per_spec (line : string) : bool :=
  existsb (λ tok, occurs_with_reason line (str.lower line) (str.lower tok))
          ESCAPE_TOKENS.

(** Some character of [s] is not white space. *)
Fixpoint has_nonspace (s : string) : bool :=
  match s with
  | EmptyString => false
  | String c s' => negb (str.isspace c) || has_nonspace s'
  end.

(** The constant [s] as an element of a list display. *)
Definition str_constant (s : string) : ast.expr := ast.Constant (ast.Str s).

(** A literal list ([tuple = false]) or tuple of the strings [names]. *)
Definition literal_of (tuple : bool) (names : list string) : ast.expr :=
  if tuple then ast.Tuple (str_constant <$> names)
  else ast.List (str_constant <$> names).

(** The message of the [SystemExit] that [parse_py] raises at a
    [SyntaxError]. *)
Definition msg_syntax_error (p : Path) (e : SyntaxError) : string :=
  "SyntaxError parsing " +:+ path.abs_str p +:+ ":" +:+
  err_lineno e +:+ ":" +:+ err_offset e +:+ ": " +:+ err_msg e.

(** The violations of the header check of an API file. *)
Definition api_header (p : Path) (tree : ast.Module) : list Violation :=
  if module_docstring_ok tree then [] else [mkViolation p 1 msg_api_module].

(** A definition the API tier reports: public, without docstring, and
    without an honoured escape on its definition line. *)
Definition needs_doc (lines : list string) (d : TopLevelDef) : bool :=
  is_public_name (def_name d)
  && negb (has_doc d)
  && negb (has_escape_with_reason (def_line_at lines (def_lineno d))).

Definition api_violation (p : Path) (d : TopLevelDef) : Violation :=
  mkViolation p (def_lineno d) (msg_api_symbol (def_name d)).

(** An export the entry tier has nothing to say about: a public name,
    bound by a relative import to a module that resolves to a readable
    file, in which the original name is a top-level definition with a
    docstring or an honoured escape. *)
Definition export_clean (fs : FileSystem) (pkg : Path)
    (imports : gmap string (string * string)) (name : string) : Prop :=
  str.startswith name "_" = false
  ∧ ∃ base original mod_file src mod_tree sym,
      imports !! name = Some (base, original)
      ∧ resolve_module_file fs pkg base = Some mod_file
      ∧ fs mod_file = Some (RegularFile src)
      ∧ parsed src = inl mod_tree
      ∧ find_top_level_symbol mod_tree original = Some sym
      ∧ has_doc sym
        || has_escape_with_reason (def_line_at (text_lines src) (def_lineno sym))
        = true.

(** [s] consists of spaces and tabs only. *)
Fixpoint only_blanks (s : string) : bool :=
  match s with
  | EmptyString => true
  | String c s' => (Ascii.eqb c " " || Ascii.eqb c "009") && only_blanks s'
  end.

(** [s] consists of spaces only. *)
Fixpoint only_spaces (s : string) : bool :=
  match s with
  | EmptyString => true
  | String c s' => Ascii.eqb c " " && only_spaces s'
  end.

(** The character [c] does not occur in [s]. *)
Fixpoint no_char (c : ascii) (s : string) : bool :=
  match s with
  | EmptyString => true
  | String a s' => negb (Ascii.eqb a c) && no_char c s'
  end.

(** A segment of a dotted module path: not empty, without dot or slash. *)
Definition is_segment (s : string) : bool :=
  negb (bool_decide (s = "")) && no_char "." s && no_char "/" s.

(** A component that a path keeps as it is. *)
Definition is_component (s : string) : bool :=
  negb (bool_decide (s = "")) && negb (bool_decide (s = ".")) && no_char "/" s.

(** [<pkg>/a/b.py] and [<pkg>/a/b/__init__.py] for the segments [a], [b]. *)
Definition module_file_path (pkg : Path) (segs : list string) : Path :=
  pkg ++ removelast segs ++ [List.last segs "" +:+ ".py"].
Definition package_init_path (pkg : Path) (segs : list string) : Path :=
  pkg ++ segs ++ ["__init__.py"].

(** A target the loop of [main] passes over: it lies outside the
    repository, or its first component below the root is a plain name
    other than [src]. *)
Definition outside_src (root t : Path) : bool :=
  match path.relative_to t root with
  | None => true
  | Some (c :: _) => negb (bool_decide (c = "src")) && no_char "/" c
  | Some [] => false
  end.





(** A relative import statement that binds the local name [x]. *)
Definition binds (x : string) (node : ast.stmt) : bool :=
  match node with
  | ast.ImportFrom _ names level =>
      (1 <=? level)
      && existsb (λ a, bool_decide (or_else (ast.asname a) (ast.name a) = x)) names
  | _ => false
  end.

(** ** Concrete packages

    Small repositories under [/repo] with the package [src/pkg], used to
    run the enforcer on. *)

Module scenario.

Definition fs_of (files : list (Path * entry)) : FileSystem := λ p,
  snd <$> List.find (λ f, bool_decide (f.1 = p)) files.

Definition py (body : list ast.stmt) (lines : list string) : entry :=
  RegularFile (mkSource (inl (ast.mkModule body)) lines).

Definition doc (text : string) : ast.stmt :=
  ast.Expr (ast.Constant (ast.Str text)).

Definition all_list (names : list string) : ast.stmt :=
  ast.Assign [ast.Name "__all__"]
             (ast.List ((λ n, ast.Constant (ast.Str n)) <$> names)).

Definition pkg_root : Path := ["repo"; "src"; "pkg"].

(** The repository [/repo] with the directories [src] and [src/pkg], the
    given files, and [listing] as the enumeration of [rglob]. *)
Definition world (files : list (Path * entry)) (listing : list Path) : World :=
  mkWorld ["repo"]
          (fs_of ((["repo"], Directory) :: (["repo"; "src"], Directory)
                  :: (pkg_root, Directory) :: files))
          (λ d, if bool_decide (d = ["repo"; "src"]) then ["pkg"] else [])
          (λ _, listing) (Ok []) (λ _, Ok []) eq_refl.

Definition sweep (pkg_name : option string) : Args := mkArgs pkg_name All.

(** [__init__.py] re-exports an undocumented [Foo] of [bar.py] and
    lists the private name [_x]. *)
Definition unsorted_files : list (Path * entry) :=
  [ (pkg_root ++ ["__init__.py"],
     py [ doc "Package.";
          ast.ImportFrom (Some "bar") [ast.Alias "Foo" None] 1;
          all_list ["Foo"; "_x"] ]
        [ "'''Package.'''"; "from .bar import Foo";
          "__all__ = ['Foo', '_x']" ]);
    (pkg_root ++ ["bar.py"],
     py [ doc "Bar."; ast.FunctionDef "Foo" 3 [ast.OtherStmt] ]
        [ "'''Bar.'''"; ""; "def Foo():"; "    pass" ]) ].
Definition unsorted_world : World := world unsorted_files [].

Definition v_bar_Foo : Violation :=
  mkViolation (pkg_root ++ ["bar.py"]) 3 (msg_export_symbol "Foo").
Definition v_init_private : Violation :=
  mkViolation (pkg_root ++ ["__init__.py"]) 1 (msg_private "_x").

(** Two API files without header docs, enumerated in either order. *)
Definition sweep_files : list (Path * entry) :=
  [ (pkg_root ++ ["__init__.py"], py [ doc "Package."; all_list [] ] []);
    (pkg_root ++ ["api"], Directory);
    (pkg_root ++ ["api"; "a.py"], py [] []);
    (pkg_root ++ ["api"; "b.py"], py [] []) ].
Definition sweep_world_ab : World :=
  world sweep_files [pkg_root ++ ["api"; "a.py"]; pkg_root ++ ["api"; "b.py"]].
Definition sweep_world_ba : World :=
  world sweep_files [pkg_root ++ ["api"; "b.py"]; pkg_root ++ ["api"; "a.py"]].

(** An entry file with nothing in it. *)
Definition empty_init_files : list (Path * entry) :=
  [ (pkg_root ++ ["__init__.py"], py [] []) ].

Definition v_init_doc : Violation :=
  mkViolation (pkg_root ++ ["__init__.py"]) 1 msg_init_module.
Definition v_all_missing : Violation :=
  mkViolation (pkg_root ++ ["__init__.py"]) 1 msg_all_missing.


(** An API file whose header and whose function [compute] both carry
    the empty string literal as their first statement. *)
Definition empty_doc_body : list ast.stmt :=
  [ doc ""; ast.FunctionDef "compute" 3 [doc ""; ast.OtherStmt] ].
Definition empty_doc_files : list (Path * entry) :=
  [ (pkg_root ++ ["api"; "metrics.py"],
     py empty_doc_body [ "''"; ""; "def compute():"; "    ''"; "    pass" ]) ].

(** A definition line carrying both markers, the reason given after the
    first of them only. *)
Definition stacked_markers_line : string :=
  "def compute():  # docstring-contract: ignore generated shim  # noqa: DOC".

(** [from .bar import Foo as Baz]: [bar.py] documents its own [Baz]
    and leaves [Foo] without a docstring. *)
Definition renamed_init : ast.Module :=
  ast.mkModule
    [ doc "Package.";
      ast.ImportFrom (Some "bar") [ast.Alias "Foo" (Some "Baz")] 1;
      all_list ["Baz"] ].
Definition renamed_bar : SourceFile :=
  mkSource
    (inl (ast.mkModule
            [ doc "Bar.";
              ast.FunctionDef "Baz" 3 [doc "Documented."; ast.OtherStmt];
              ast.FunctionDef "Foo" 7 [ast.OtherStmt] ]))
    [ "'''Bar.'''"; ""; "def Baz():"; "    '''Documented.'''"; "    pass";
      ""; "def Foo():"; "    pass" ].
Definition renamed_files : list (Path * entry) :=
  [ (pkg_root ++ ["__init__.py"],
     RegularFile (mkSource (inl renamed_init)
       [ "'''Package.'''"; "from .bar import Foo as Baz"; "__all__ = ['Baz']" ]));
    (pkg_root ++ ["bar.py"], RegularFile renamed_bar) ].

(** [from ..foo import Bar], a two-level relative import, next to a
    [foo.py] of the package itself with a documented [Bar]. *)
Definition multi_level_files : list (Path * entry) :=
  [ (pkg_root ++ ["__init__.py"],
     py [ doc "Package.";
          ast.ImportFrom (Some "foo") [ast.Alias "Bar" None] 2;
          all_list ["Bar"] ]
        [ "'''Package.'''"; "from ..foo import Bar"; "__all__ = ['Bar']" ]);
    (pkg_root ++ ["foo.py"],
     py [ doc "Foo."; ast.FunctionDef "Bar" 3 [doc "Documented."; ast.OtherStmt] ]
        [ "'''Foo.'''"; ""; "def Bar():"; "    '''Documented.'''"; "    pass" ]) ].

(** [from . import X] in a package that defines and documents [X] in
    its [__init__.py]. *)
Definition dot_import_init : entry :=
  py [ doc "Package.";
       ast.ImportFrom None [ast.Alias "X" None] 1;
       ast.FunctionDef "X" 4 [doc "Documented."; ast.OtherStmt];
       all_list ["X"] ]
     [ "'''Package.'''"; "from . import X"; ""; "def X():";
       "    '''Documented.'''"; "    pass"; "__all__ = ['X']" ].
Definition dot_import_files : list (Path * entry) :=
  [ (pkg_root ++ ["__init__.py"], dot_import_init) ].
(** The same package with one more file in it, named [..py]. *)
Definition dot_import_files_dotpy : list (Path * entry) :=
  [ (pkg_root ++ ["__init__.py"], dot_import_init);
    (pkg_root ++ ["..py"], py [] []) ].

(** An entry file that exports a private name only. *)
Definition private_export_files : list (Path * entry) :=
  [ (pkg_root ++ ["__init__.py"],
     py [ doc "Package."; all_list ["_Hidden"] ]
        [ "'''Package.'''"; "__all__ = ['_Hidden']" ]) ].

(** [api/metrics.py] with a header docstring and an undocumented public
    [compute] on line 3, whose definition line is [def_line]; a private
    [_helper] without docstring follows. *)
Definition api_metrics (def_line : string) : list (Path * entry) :=
  [ (pkg_root ++ ["api"; "metrics.py"],
     py [ doc "Metrics.";
          ast.FunctionDef "compute" 3 [ast.OtherStmt];
          ast.FunctionDef "_helper" 6 [ast.OtherStmt] ]
        [ "'''Metrics.'''"; ""; def_line; "    pass"; "";
          "def _helper():"; "    pass" ]) ].

(** Two definitions of [load], the second one documented, after an
    assignment to the same name. *)
Definition twice_defined : ast.Module :=
  ast.mkModule
    [ doc "Loader.";
      ast.Assign [ast.Name "load"] ast.OtherExpr;
      ast.FunctionDef "load" 4 [ast.OtherStmt];
      ast.FunctionDef "load" 8 [doc "Documented."; ast.OtherStmt] ].

(** A package with nothing to report: [__init__.py] re-exports the
    documented [Foo] of [bar.py] and the escaped [legacy] of the same
    file. *)
Definition clean_init : ast.Module :=
  ast.mkModule
    [ doc "Package.";
      ast.ImportFrom (Some "bar") [ast.Alias "Foo" None; ast.Alias "legacy" None] 1;
      all_list ["Foo"; "legacy"] ].
Definition clean_bar : SourceFile :=
  mkSource
    (inl (ast.mkModule
            [ doc "Bar.";
              ast.ClassDef "Foo" 3 [doc "Documented."; ast.OtherStmt];
              ast.FunctionDef "legacy" 7 [ast.OtherStmt] ]))
    [ "'''Bar.'''"; ""; "class Foo:"; "    '''Documented.'''"; "    pass";
      ""; "def legacy():  # noqa: DOC removed in v2"; "    pass" ].
Definition clean_files : list (Path * entry) :=
  [ (pkg_root ++ ["__init__.py"],
     RegularFile (mkSource (inl clean_init)
       [ "'''Package.'''"; "from .bar import Foo, legacy";
         "__all__ = ['Foo', 'legacy']" ]));
    (pkg_root ++ ["bar.py"], RegularFile clean_bar) ].

(** The same entry file next to a [bar.py] that does not parse. *)
Definition bar_syntax_error : SyntaxError :=
  mkSyntaxError "3" "10" "invalid syntax".
Definition broken_origin_files : list (Path * entry) :=
  [ (pkg_root ++ ["__init__.py"],
     RegularFile (mkSource (inl clean_init)
       [ "'''Package.'''"; "from .bar import Foo, legacy";
         "__all__ = ['Foo', 'legacy']" ]));
    (pkg_root ++ ["bar.py"],
     RegularFile (mkSource (inr bar_syntax_error) [ "'''Bar.'''"; ""; "class Foo(:" ])) ].


(** The package of [unsorted_files] with two API files without header
    docstring, enumerated in either order. *)
Definition mixed_files : list (Path * entry) :=
  unsorted_files
  ++ [ (pkg_root ++ ["api"], Directory);
       (pkg_root ++ ["api"; "a.py"], py [] []);
       (pkg_root ++ ["api"; "b.py"], py [] []) ].
Definition mixed_world_ab : World :=
  world mixed_files [pkg_root ++ ["api"; "a.py"]; pkg_root ++ ["api"; "b.py"]].
Definition mixed_world_ba : World :=
  world mixed_files [pkg_root ++ ["api"; "b.py"]; pkg_root ++ ["api"; "a.py"]].
Definition v_api_header (file : string) : Violation :=
  mkViolation (pkg_root ++ ["api"; file]) 1 msg_api_module.




(** [X] bound by two single-level imports and, after them, by a
    two-level one. *)
Definition overridden_binding : ast.Module :=
  ast.mkModule
    [ ast.ImportFrom (Some "a") [ast.Alias "X" None] 1;
      ast.ImportFrom (Some "b") [ast.Alias "X" None] 1;
      ast.ImportFrom (Some "c") [ast.Alias "X" None] 2 ].

(** [X] imported three times. *)
Definition thrice_bound : ast.Module :=
  ast.mkModule
    [ ast.ImportFrom (Some "a") [ast.Alias "X" None] 1;
      ast.ImportFrom (Some "b") [ast.Alias "W" (Some "X"); ast.Alias "X" None;
                                 ast.Alias "Z" None] 1;
      ast.OtherStmt ].

End scenario.

(** ** Reasoning about the loops *)

Lemma bind_Ok {A B} (r : result A) (k : A → result B) b :
  (r ≫= k) = Ok b ↔ ∃ a, r = Ok a ∧ k a = Ok b.
Proof.
  destruct r as [a|e]; simpl; split.
  - intros H. by exists a.
  - by intros (a' & [= ->] & H).
  - discriminate.
  - by intros (a' & [=] & _).
Qed.

Lemma bind_ret {A} (r : result A) : (r ≫= Ok) = r.
Proof. by destruct r. Qed.

Lemma for_each_app {A S} (body : S → A → result S) xs ys acc :
  for_each body (xs ++ ys) acc = (for_each body xs acc ≫= for_each body ys).
Proof.
  revert acc. induction xs as [|x xs IH]; intros acc; simpl; [done|].
  destruct (body acc x) as [acc'|e]; simpl; [apply IH|done].
Qed.


Lemma for_each_accumulates {A V} (body : list V → A → result (list V)) xs acc r :
  accumulates body →
  for_each body xs acc = Ok r ↔
  ∃ vss, Forall2 (λ x vs, body [] x = Ok vs) xs vss ∧ r = acc ++ concat vss.
Proof.
  intros Hacc. revert acc r. induction xs as [|x xs IH]; intros acc r; simpl.
  - split.
    + intros [= <-]. exists []. split; [constructor|]. by rewrite app_nil_r.
    + intros (vss & Hall & ->). inversion Hall; subst. simpl. by rewrite app_nil_r.
  - rewrite (Hacc acc x). destruct (body [] x) as [vs|e] eqn:Hb; simpl.
    + rewrite IH. split.
      * intros (vss & Hall & ->). exists (vs :: vss). split; [by constructor|].
        simpl. by rewrite app_assoc.
      * intros (vss & Hall & ->). inversion Hall as [|? vs' ? vss' Hx Hall']; subst.
        rewrite Hb in Hx. simplify_eq. exists vss'. split; [done|].
        simpl. by rewrite app_assoc.
    + split; [discriminate|].
      intros (vss & Hall & _). inversion Hall; subst. congruence.
Qed.

Lemma for_each_raises {A S} (body : S → A → result S) xs x acc :
  x ∈ xs → (∀ acc', ∃ e, body acc' x = Raise e) →
  ∃ e, for_each body xs acc = Raise e.
Proof.
  intros Hin Hx. revert acc. induction xs as [|y xs IH]; intros acc.
  - by apply elem_of_nil in Hin.
  - simpl. apply elem_of_cons in Hin as [<-|Hin].
    + destruct (Hx acc) as [e ->]. by exists e.
    + destruct (body acc y) as [acc'|e]; simpl; [by apply IH|by exists e].
Qed.

Lemma check_target_accumulates w pkg :
  accumulates (check_target w pkg).
Proof.
  intros acc t. unfold check_target.
  destruct (path.relative_to t (ROOT w)); simpl; [|by rewrite app_nil_r].
  destruct (path.relative_to _ (ROOT w)); simpl; [|done].
  repeat case_match; simpl; try done.
  all: try (by rewrite ?app_nil_r).
  all: by rewrite bind_ret.
Qed.

Lemma collect_single w pkg t :
  collect w pkg [t] = check_target w pkg [] t.
Proof. unfold collect. simpl. apply bind_ret. Qed.

(** ** Order of paths *)

Global Instance path_le_total : Total path.le.
Proof.
  intros p. unfold path.le. induction p as [|a p IH]; intros [|b q]; simpl; auto.
  repeat case_bool_decide; subst; try done; auto.
  - destruct (total String.le a b); tauto.
Qed.

Global Instance path_le_trans : Transitive path.le.
Proof.
  intros p. unfold path.le.
  induction p as [|a p IH]; intros [|b q] [|c r]; simpl; try done.
  repeat case_bool_decide; subst; try done; eauto.
  - intros _ _. exfalso. assert (c = b) by (by apply (anti_symm String.le)). done.
  - intros _ _. exfalso. assert (a ≤ c)%string by (by etrans). done.
Qed.

Global Instance path_le_antisym : AntiSymm (=) path.le.
Proof.
  intros p. unfold path.le.
  induction p as [|a p IH]; intros [|b q]; simpl; try done.
  repeat case_bool_decide; subst; try done.
  - intros ??. f_equal. by apply IH.
  - intros _ _. exfalso. assert (a = b) by (by apply (anti_symm String.le)). done.
Qed.

(** [sorted(set(...))] does not depend on the order of enumeration. *)
Lemma sorted_set_perm (l1 l2 : list Path) :
  l1 ≡ₚ l2 →
  merge_sort path.le (remove_dups l1) = merge_sort path.le (remove_dups l2).
Proof.
  intros Hp. apply (Sorted_unique path.le).
  - apply Sorted_merge_sort, _.
  - apply Sorted_merge_sort, _.
  - rewrite !merge_sort_Permutation.
    apply NoDup_Permutation; try apply NoDup_remove_dups.
    intros x. rewrite !elem_of_remove_dups. by rewrite Hp.
Qed.

Lemma for_each_shift {A V} (body : list V → A → result (list V)) xs acc :
  accumulates body →
  for_each body xs acc = (for_each body xs [] ≫= λ vs, Ok (acc ++ vs)).
Proof.
  intros Hacc. revert acc. induction xs as [|x xs IH]; intros acc; simpl.
  - by rewrite app_nil_r.
  - rewrite (Hacc acc x). destruct (body [] x) as [vs|e]; simpl; [|done].
    rewrite (IH (acc ++ vs)), (IH vs).
    destruct (for_each body xs []) as [r|e]; simpl; [|done].
    by rewrite app_assoc.
Qed.

Lemma elem_of_concat {A} (x : A) (ls : list (list A)) :
  x ∈ concat ls ↔ ∃ l, l ∈ ls ∧ x ∈ l.
Proof.
  induction ls as [|l ls IH]; simpl.
  - split; [by intros ?%elem_of_nil|by intros (? & ?%elem_of_nil & _)].
  - rewrite elem_of_app, IH. split.
    + intros [?|(l' & ? & ?)]; [exists l|exists l']; split; try done.
      * by left.
      * by right.
    + intros (l' & [->|?]%elem_of_cons & ?); [by left|right; by exists l'].
Qed.

(** ** The driver: scope and report *)

Lemma collect_concat w pkg targets vs :
  collect w pkg targets = Ok vs ↔
  ∃ vss, Forall2 (λ t vs_t, collect w pkg [t] = Ok vs_t) targets vss
         ∧ vs = concat vss.
Proof.
  unfold collect at 1.
  rewrite (for_each_accumulates _ _ _ _ (check_target_accumulates w pkg)).
  split; intros (vss & Hall & ->); exists vss; (split; [|done]).
  all: eapply Forall2_impl; [exact Hall|]; intros t vs_t Ht; simpl in *.
  all: by rewrite collect_single in *.
Qed.

Lemma collect_app w pkg ts1 ts2 :
  collect w pkg (ts1 ++ ts2) =
  (vs1 ← collect w pkg ts1; vs2 ← collect w pkg ts2; Ok (vs1 ++ vs2)).
Proof.
  unfold collect. rewrite for_each_app.
  destruct (for_each _ ts1 []) as [vs1|e] eqn:H1; simpl; [|done].
  apply for_each_shift, check_target_accumulates.
Qed.

(** The default run with one staged Python file [rel] has the one target
    [ROOT / rel], and collects what the loop collects for it. *)
Lemma single_file_run w pkg rel :
  str.endswith rel ".py" = true →
  select_targets (with_staged w [rel]) pkg Staged = Ok [ROOT w // rel]
  ∧ collect (with_staged w [rel]) pkg [ROOT w // rel]
    = collect w pkg [ROOT w // rel].
Proof.
  intros Hpy. split; [|done].
  unfold select_targets. simpl. rewrite filter_cons_True by by rewrite Hpy.
  done.
Qed.


(** A full sweep does not depend on the order in which the file system
    enumerates the API directory. *)
Lemma sweep_ignores_enumeration_order w w' pkg_arg :
  ROOT w = ROOT w' → fs w = fs w' → listdir w = listdir w' →
  (∀ dir, rglob_py w dir ≡ₚ rglob_py w' dir) →
  main w (mkArgs pkg_arg All) = main w' (mkArgs pkg_arg All).
Proof.
  intros HR Hfs Hls Hperm.
  destruct w as [R f d g s r HRd], w' as [R' f' d' g' s' r' HRd'].
  simpl in HR, Hfs, Hls, Hperm. subst R' f' d'.
  unfold main. simpl.
  assert (pkg_dir (mkWorld R f d g s r HRd) pkg_arg
          = pkg_dir (mkWorld R f d g' s' r' HRd') pkg_arg) as <- by done.
  destruct (pkg_dir _ pkg_arg) as [pkg|e]; simpl; [|done].
  unfold run. simpl.
  assert (candidates (mkWorld R f d g s r HRd) pkg
          ≡ₚ candidates (mkWorld R f d g' s' r' HRd') pkg) as Hc.
  { unfold candidates. simpl.
    apply Permutation_app; [|done].
    destruct (exists_ f _); [|done]. apply filter_Permutation, Hperm. }
  by rewrite (sorted_set_perm _ _ (fmap_Permutation path.resolve _ _ Hc)).
Qed.

(** C1, refuted as stated: the sweep over a package whose [__init__.py]
    re-exports the undocumented [Foo] of [bar.py] and lists the private
    [_x] reports [bar.py:3] before [__init__.py:1], against the order by
    (file path, line number). *)
Lemma report_not_sorted :
  (select_targets scenario.unsorted_world scenario.pkg_root All
     ≫= collect scenario.unsorted_world scenario.pkg_root)
  = Ok [scenario.v_bar_Foo; scenario.v_init_private]
  ∧ main scenario.unsorted_world (mkArgs None All)
    = Ok (1, [ "- src/pkg/bar.py:3: " +:+ msg_export_symbol "Foo";
               "- src/pkg/__init__.py:1: " +:+ msg_private "_x" ])
  ∧ ¬ Sorted violation_le [scenario.v_bar_Foo; scenario.v_init_private]
  ∧ ¬ String.le "src/pkg/bar.py" "src/pkg/__init__.py".
Proof.
  split; [by vm_compute|]. split; [by vm_compute|]. split.
  - intros [_ Hhd%HdRel_inv]%Sorted_inv. by vm_compute in Hhd.
  - by vm_compute.
Qed.

(** ** The export list *)

Lemma all_in_targets_spec targets val :
  all_in_targets targets val =
  if existsb is_all_target targets then Some (all_of_value val) else None.
Proof.
  induction targets as [|tgt rest IH]; simpl; [done|].
  by destruct (is_all_target tgt).
Qed.

Lemma extract_all_list_spec mod_ :
  extract_all_list mod_ =
  match all_assignment_value mod_ with
  | Some val => items ← all_of_value val; Ok (Some items)
  | None => Ok None
  end.
Proof.
  unfold extract_all_list, all_assignment_value.
  induction (ast.body mod_) as [|node rest IH]; simpl; [done|].
  destruct node; simpl; try done.
  rewrite all_in_targets_spec. by destruct (existsb is_all_target targets).
Qed.

Lemma all_assignment_value_None mod_ :
  declares_all mod_ = false → all_assignment_value mod_ = None.
Proof.
  unfold declares_all, all_assignment_value.
  induction (ast.body mod_) as [|node rest IH]; simpl; [done|].
  intros [Hn Hr]%orb_false_elim. rewrite Hn. by apply IH.
Qed.


Lemma all_items_strings elts items :
  forallb is_str_constant elts = true →
  ∃ items', all_items elts items = Ok items'.
Proof.
  revert items. induction elts as [|e rest IH]; intros items; simpl; [by eexists|].
  destruct e as [[s|]| | | |]; simpl; try done. apply IH.
Qed.


(** A literal list or tuple of string constants is accepted. *)
Lemma all_of_value_literal val :
  literal_strings val = true → ∃ items, all_of_value val = Ok items.
Proof. destruct val; simpl; try done; apply all_items_strings. Qed.

(** C3, as the code has it.  An entry file without an assignment to
    [__all__] gets exactly one [__all__ is missing] violation, at its line
    1, and nothing for any export; the only other violation the check can
    report is the one for a missing header docstring, which comes first. *)
Theorem missing_all_short_circuits fs init_path pkg tree :
  parse_py fs init_path = Ok tree →
  declares_all tree = false →
  check_init_exports fs init_path pkg =
  Ok ((if module_docstring_ok tree then []
       else [mkViolation init_path 1 msg_init_module])
      ++ [mkViolation init_path 1 msg_all_missing]).
Proof.
  intros Hparse Hno. unfold check_init_exports. rewrite Hparse. simpl.
  rewrite extract_all_list_spec, (all_assignment_value_None _ Hno). simpl.
  by destruct (module_docstring_ok tree).
Qed.

Lemma missing_all_short_circuits_witness :
  check_init_exports (scenario.fs_of scenario.empty_init_files)
    (scenario.pkg_root ++ ["__init__.py"]) scenario.pkg_root
  = Ok ([scenario.v_init_doc] ++ [scenario.v_all_missing]).
Proof.
  apply (missing_all_short_circuits
           (scenario.fs_of scenario.empty_init_files)
           (scenario.pkg_root ++ ["__init__.py"]) scenario.pkg_root
           (ast.mkModule [])); reflexivity.
Defined.

(** C3, refuted as stated: an entry file with neither a header docstring
    nor an export list gets two violations, not one. *)
Lemma missing_all_two_violations :
  declares_all (ast.mkModule []) = false
  ∧ ∃ vs, check_init_exports (scenario.fs_of scenario.empty_init_files)
            (scenario.pkg_root ++ ["__init__.py"]) scenario.pkg_root = Ok vs
          ∧ vs = [scenario.v_init_doc; scenario.v_all_missing]
          ∧ length vs ≠ 1%nat.
Proof. split; [done|]. eexists. split; [by vm_compute|]. by split. Qed.

(** ** Header documentation *)

(** C5, as the code has it.  A header docstring counts, for a file and
    for a definition alike, exactly when the first statement is a
    standalone string literal whose text is not empty once
    [inspect.cleandoc] has cleaned it. *)
Theorem has_doc_iff_nonempty_cleaned_literal :
  (∀ mod_,
     module_docstring_ok mod_ = true ↔
     ∃ text rest, ast.body mod_ = ast.Expr (ast.Constant (ast.Str text)) :: rest
                  ∧ ast.cleandoc text ≠ "")
  ∧ (∀ node,
       has_doc node = true ↔
       ∃ text rest, def_body node = ast.Expr (ast.Constant (ast.Str text)) :: rest
                    ∧ ast.cleandoc text ≠ "").
Proof.
  assert (∀ body, truthy (ast.get_docstring body) = true ↔
            ∃ text rest, body = ast.Expr (ast.Constant (ast.Str text)) :: rest
                         ∧ ast.cleandoc text ≠ "") as H.
  { intros body. split.
    - destruct body as [|[| | | | |[[text|]| | | |]|] rest]; simpl; try done.
      intros Ht. exists text, rest. split; [done|].
      apply negb_true_iff, bool_decide_eq_false in Ht. done.
    - intros (text & rest & -> & Hne). simpl.
      by apply negb_true_iff, bool_decide_eq_false. }
  split; intros x; apply H.
Qed.

Lemma string_app_cons c s t : String c s +:+ t = String c (s +:+ t).
Proof. reflexivity. Qed.

Lemma string_app_assoc s t u : (s +:+ t) +:+ u = s +:+ (t +:+ u).
Proof.
  induction s as [|c s IH]; [done|]. by rewrite !string_app_cons, IH.
Qed.

Lemma string_app_empty_r s : s +:+ "" = s.
Proof.
  induction s as [|c s IH]; [done|]. by rewrite string_app_cons, IH.
Qed.

Lemma rev_app_append s acc : String.rev_app s acc = String.rev s +:+ acc.
Proof.
  unfold String.rev. revert acc.
  induction s as [|c s IH]; intros acc; simpl; [done|].
  rewrite (IH (String c acc)), (IH (String c "")).
  by rewrite string_app_assoc.
Qed.

(** A line under construction keeps what it has collected so far. *)
Lemma split_go_cur sep cur s :
  ∃ h t, str.split_go sep "" s = h :: t
         ∧ str.split_go sep cur s = (String.rev cur +:+ h) :: t.
Proof.
  revert cur. induction s as [|c s IH]; intros cur; simpl.
  - exists "", []. split; [done|].
    by rewrite string_app_empty_r.
  - destruct (Ascii.eqb c sep).
    + exists "", (str.split_go sep "" s). split; [done|].
      by rewrite string_app_empty_r.
    + destruct (IH (String c "")) as (h & t & Hs & Hc).
      destruct (IH (String c cur)) as (h' & t' & Hs' & Hc').
      rewrite Hs in Hs'. injection Hs' as <- <-.
      exists (String c h), t. split; [by rewrite Hc|].
      rewrite Hc'. f_equal. unfold String.rev. simpl.
      rewrite (rev_app_append cur (String c "")).
      by rewrite string_app_assoc.
Qed.

Lemma drop_blank_head_snoc lines (x : string) :
  x ≠ "" → ∃ lines', ast.drop_blank_head (lines ++ [x]) = lines' ++ [x].
Proof.
  intros Hx. induction lines as [|l lines IH]; simpl.
  - exists []. by destruct x.
  - destruct l; [done|]. by eexists (_ :: _).
Qed.

Lemma join_nonempty sep (x : string) lines :
  x ≠ "" → str.join sep (x :: lines) ≠ "".
Proof. destruct x; [done|]. by destruct lines. Qed.

(** A docstring that starts with a character other than white space is
    not empty once cleaned: ordinary docstrings count. *)
Lemma cleandoc_nonblank c text :
  str.isspace c = false → ast.cleandoc (String c text) ≠ "".
Proof.
  intros Hc.
  assert (Ascii.eqb c "009" = false) as H9
    by (destruct (Ascii.eqb_spec c "009") as [->|]; done).
  assert (Ascii.eqb c "010" = false) as H10
    by (destruct (Ascii.eqb_spec c "010") as [->|]; done).
  assert (Ascii.eqb c "013" = false) as H13
    by (destruct (Ascii.eqb_spec c "013") as [->|]; done).
  unfold ast.cleandoc, ast.expandtabs, str.split.
  cbn [ast.expandtabs_go]. rewrite H9, H10, H13. cbn [orb str.split_go].
  rewrite H10.
  destruct (split_go_cur "010" (String c "") (ast.expandtabs_go 1 text))
    as (h & t & _ & ->).
  change (String.rev (String c "") +:+ h) with (String c h).
  cbn [str.lstrip]. rewrite Hc.
  set (rest := match ast.margin_of t with
               | Some margin => str.drop margin <$> t
               | None => t
               end).
  rewrite reverse_cons.
  destruct (drop_blank_head_snoc (reverse rest) (String c h)) as [lines' ->]; [done|].
  rewrite reverse_app. simpl. by apply join_nonempty.
Qed.

(** C5, refuted as stated: the empty string literal as first statement
    is a standalone string literal, yet neither the file nor the function
    counts as documented, and the API check reports both. *)
Lemma empty_literal_is_no_doc :
  starts_with_string_literal scenario.empty_doc_body = true
  ∧ module_docstring_ok (ast.mkModule scenario.empty_doc_body) = false
  ∧ starts_with_string_literal [scenario.doc ""; ast.OtherStmt] = true
  ∧ has_doc (mkDef "compute" 3 [scenario.doc ""; ast.OtherStmt]) = false
  ∧ check_api_file (scenario.fs_of scenario.empty_doc_files)
      (scenario.pkg_root ++ ["api"; "metrics.py"])
    = Ok [ mkViolation (scenario.pkg_root ++ ["api"; "metrics.py"]) 1 msg_api_module;
           mkViolation (scenario.pkg_root ++ ["api"; "metrics.py"]) 3
                       (msg_api_symbol "compute") ].
Proof. repeat split; by vm_compute. Qed.

(** ** Fatal configuration errors *)

Lemma relative_to_app (root rest : Path) :
  path.relative_to (root ++ rest) root = Some rest.
Proof.
  induction root as [|r root IH]; simpl; [done|].
  by rewrite bool_decide_eq_true_2.
Qed.

Lemma div_relative (p : Path) (s : string) :
  str.startswith s "/" = false → p // s = p ++ path.parts_of s.
Proof. unfold path.div. by intros ->. Qed.

Lemma init_path_eq (pkg : Path) : init_path pkg = pkg ++ ["__init__.py"].
Proof. reflexivity. Qed.

Lemma api_dir_eq (pkg : Path) : api_dir pkg = pkg ++ ["api"].
Proof. reflexivity. Qed.

(** With auto-detection, and with a [--pkg] that is not an absolute
    path, the package directory lies below [src/] of the repository. *)
Lemma pkg_dir_below_src w pkg_arg pkg :
  str.startswith (default "" pkg_arg) "/" = false →
  pkg_dir w pkg_arg = Ok pkg → ∃ rest, pkg = ROOT w ++ "src" :: rest.
Proof.
  intros Hrel. unfold pkg_dir, detect_pkg_dir.
  change (ROOT w // "src") with (ROOT w ++ ["src"]).
  destruct (truthy pkg_arg).
  - rewrite (div_relative _ _ Hrel).
    destruct (negb _); [done|]. intros [= <-]. rewrite <-app_assoc. by eexists.
  - destruct (negb _); [done|]. destruct (negb _); [done|].
    destruct (filter _ _) as [|c [|c' cs]] eqn:Hf; try done.
    intros [= <-].
    assert (c ∈ [c]) as Hc by apply list_elem_of_here. rewrite <-Hf in Hc.
    apply list_elem_of_filter in Hc as [_ Hc].
    apply list_elem_of_fmap in Hc as (n & -> & _).
    rewrite <-app_assoc. by eexists.
Qed.






(** ** The import map *)

Lemma bind_alias_other base m a (x : string) :
  or_else (ast.asname a) (ast.name a) ≠ x →
  bind_alias base m a !! x = m !! x.
Proof. intros Hne. unfold bind_alias. by rewrite lookup_insert_ne. Qed.

Lemma bind_aliases_other base names m (x : string) :
  existsb (λ a, bool_decide (or_else (ast.asname a) (ast.name a) = x)) names = false →
  foldl (bind_alias base) m names !! x = m !! x.
Proof.
  revert m. induction names as [|a names IH]; intros m; simpl; [done|].
  intros [Ha Hn]%orb_false_elim. rewrite IH by done.
  apply bind_alias_other. by apply bool_decide_eq_false in Ha.
Qed.

Lemma bind_import_other m node (x : string) :
  binds x node = false → bind_import m node !! x = m !! x.
Proof.
  destruct node; simpl; try done.
  destruct (1 <=? level); simpl; [|done]. apply bind_aliases_other.
Qed.

Lemma bind_imports_other body m (x : string) :
  existsb (binds x) body = false →
  foldl bind_import m body !! x = m !! x.
Proof.
  revert m. induction body as [|node body IH]; intros m; simpl; [done|].
  intros [Hn Hb]%orb_false_elim. rewrite IH by done. by apply bind_import_other.
Qed.

(** A name no relative import binds is not in the map. *)
Lemma import_map_unbound mod_ (x : string) :
  existsb (binds x) (ast.body mod_) = false →
  import_map_from_init mod_ !! x = None.
Proof.
  intros H. unfold import_map_from_init. by rewrite bind_imports_other.
Qed.

(** Of the relative imports that bind a local name, of whatever level,
    the one latest in the module body, and in it the latest alias, gives
    the name its only entry in the import map. *)
Lemma import_map_last_binding_wins
    mod_ pre module names level post n1 a n2 (x : string) :
  ast.body mod_ = pre ++ ast.ImportFrom module names level :: post →
  1 ≤ level →
  names = n1 ++ a :: n2 →
  or_else (ast.asname a) (ast.name a) = x →
  existsb (λ a', bool_decide (or_else (ast.asname a') (ast.name a') = x)) n2 = false →
  existsb (binds x) post = false →
  import_map_from_init mod_ !! x = Some (or_else module "", ast.name a).
Proof.
  intros Hbody Hlevel -> Hx Hn2 Hpost.
  unfold import_map_from_init. rewrite Hbody, foldl_app. simpl.
  rewrite bind_imports_other by done.
  apply Z.leb_le in Hlevel. rewrite Hlevel.
  rewrite foldl_app. simpl. rewrite bind_aliases_other by done.
  unfold bind_alias. rewrite Hx. apply lookup_insert_eq.
Qed.

Lemma import_map_last_binding_wins_witness :
  import_map_from_init scenario.thrice_bound !! "X" = Some ("b", "X").
Proof.
  apply (import_map_last_binding_wins scenario.thrice_bound
           [ast.ImportFrom (Some "a") [ast.Alias "X" None] 1]
           (Some "b")
           [ast.Alias "W" (Some "X"); ast.Alias "X" None; ast.Alias "Z" None]
           1 [ast.OtherStmt]
           [ast.Alias "W" (Some "X")] (ast.Alias "X" None) [ast.Alias "Z" None]
           "X").
  - reflexivity.
  - lia.
  - reflexivity.
  - reflexivity.
  - reflexivity.
  - reflexivity.
Defined.

(** C9, where the code departs from it: [X] is bound by
    [from .a import X] and [from .b import X], the last single-level
    import of the name, and after them by the two-level
    [from ..c import X].  The map does not keep [("b", "X")]: the
    two-level import is entered like a single-level one, with its level
    dropped, and takes the name over. *)
Theorem multi_level_import_takes_over :
  import_map_from_init scenario.overridden_binding !! "X" = Some ("c", "X")
  ∧ import_map_from_init
      (ast.mkModule (take 2 (ast.body scenario.overridden_binding))) !! "X"
    = Some ("b", "X").
Proof. split; by vm_compute. Qed.

(** ** The entry tier *)

Lemma check_export_accumulates fs init_path pkg imports :
  accumulates (check_export fs init_path pkg imports).
Proof.
  intros acc name. unfold check_export.
  repeat case_match; simpl; try done.
  all: repeat (match goal with
               | |- context [?r ≫= _] =>
                   lazymatch r with
                   | parse_py _ _ => destruct r
                   | get_lines _ _ => destruct r
                   end; simpl; try done
               end; repeat case_match; simpl; try done).
  all: by rewrite ?app_nil_r.
Qed.


(** A check of the entry file that returns has gone through the export
    list name by name. *)
Lemma check_init_exports_by_name fs init_path pkg tree exported vs :
  parse_py fs init_path = Ok tree →
  extract_all_list tree = Ok (Some exported) →
  check_init_exports fs init_path pkg = Ok vs ↔
  ∃ vss,
    Forall2 (λ name vs_n,
               check_export fs init_path pkg (import_map_from_init tree) [] name
               = Ok vs_n) exported vss
    ∧ vs = init_header init_path tree ++ concat vss.
Proof.
  intros Hparse Hall. unfold check_init_exports, init_header.
  rewrite Hparse. simpl. rewrite Hall. simpl.
  rewrite for_each_accumulates by apply check_export_accumulates.
  by destruct (module_docstring_ok tree).
Qed.

(** What the check finds for one exported name is part of what the check
    of the entry file returns. *)
Lemma check_init_exports_member fs init_path pkg tree exported name vs_n vs :
  parse_py fs init_path = Ok tree →
  extract_all_list tree = Ok (Some exported) →
  name ∈ exported →
  check_export fs init_path pkg (import_map_from_init tree) [] name = Ok vs_n →
  check_init_exports fs init_path pkg = Ok vs →
  ∀ x, x ∈ vs_n → x ∈ vs.
Proof.
  intros Hparse Hall Hin Hone Hvs x Hx.
  apply (check_init_exports_by_name _ _ _ _ _ _ Hparse Hall) in Hvs
    as (vss & Hforall & ->).
  apply list_elem_of_lookup in Hin as [i Hi].
  destruct (Forall2_lookup_l _ _ _ _ _ Hforall Hi) as (vs' & Hvs' & Hrun).
  rewrite Hone in Hrun. injection Hrun as <-.
  apply elem_of_app. right. apply elem_of_concat. exists vs_n. split; [|done].
  by eapply list_elem_of_lookup_2.
Qed.

Lemma parse_py_of_source fs p src tree :
  fs p = Some (RegularFile src) → parsed src = inl tree →
  parse_py fs p = Ok tree ∧ get_lines fs p = Ok (text_lines src).
Proof.
  intros Hp Htree. unfold parse_py, get_lines, read_text. rewrite Hp. simpl.
  by rewrite Htree.
Qed.





(** A public export that no relative import binds is flagged at line 1
    of the entry file. *)
Lemma unbound_export_flagged fs init_path pkg tree exported name vs :
  parse_py fs init_path = Ok tree →
  extract_all_list tree = Ok (Some exported) →
  name ∈ exported →
  str.startswith name "_" = false →
  existsb (binds name) (ast.body tree) = false →
  check_init_exports fs init_path pkg = Ok vs →
  mkViolation init_path 1 (msg_not_imported name) ∈ vs.
Proof.
  intros Hparse Hall Hin Hpub Hunbound Hvs.
  eapply (check_init_exports_member _ _ _ _ _ _ _ _ Hparse Hall Hin); [|done|].
  - unfold check_export. by rewrite Hpub, (import_map_unbound _ _ Hunbound).
  - apply list_elem_of_here.
Qed.

(** C4, on the code: a two-level relative import is entered in the
    import map like a one-level one and resolved below the package
    itself; with a documented [Bar] in the package's own [foo.py] the
    export [Bar] of [from ..foo import Bar] draws no violation at all. *)
Theorem multi_level_import_not_flagged :
  binds "Bar" (ast.ImportFrom (Some "foo") [ast.Alias "Bar" None] 2) = true
  ∧ import_map_from_init
      (ast.mkModule [ scenario.doc "Package.";
                      ast.ImportFrom (Some "foo") [ast.Alias "Bar" None] 2;
                      scenario.all_list ["Bar"] ]) !! "Bar"
    = Some ("foo", "Bar")
  ∧ check_init_exports (scenario.fs_of scenario.multi_level_files)
      (scenario.pkg_root ++ ["__init__.py"]) scenario.pkg_root
    = Ok [].
Proof. repeat split; by vm_compute. Qed.

(** ** Module resolution *)

(** With no file named [..py] in the package, the empty dotted path of
    [from . import X] resolves to the package's own [__init__.py]. *)
Lemma resolve_empty_path fs pkg :
  exists_ fs (pkg // "..py") = false →
  exists_ fs (pkg // "__init__.py") = true →
  resolve_module_file fs pkg "" = Some (pkg // "__init__.py").
Proof.
  intros Hdot Hinit. unfold resolve_module_file. simpl.
  change ("." +:+ ".py") with "..py".
  rewrite app_nil_r. by rewrite Hdot, Hinit.
Qed.

(** C10, on the code: the first candidate for the empty dotted path is
    the file [..py] of the package, since the text of the empty path is
    [.] and not the empty string; where that file exists the export of
    [from . import X] is looked up in it and not in [__init__.py]. *)
Theorem empty_path_resolves_to_dotpy :
  resolve_module_file (scenario.fs_of scenario.dot_import_files_dotpy)
    scenario.pkg_root ""
  = Some (scenario.pkg_root ++ ["..py"])
  ∧ check_init_exports (scenario.fs_of scenario.dot_import_files_dotpy)
      (scenario.pkg_root ++ ["__init__.py"]) scenario.pkg_root
    = Ok [mkViolation (scenario.pkg_root ++ ["..py"]) 1 (msg_not_found "X" "X")]
  ∧ resolve_module_file (scenario.fs_of scenario.dot_import_files)
      scenario.pkg_root ""
    = Some (scenario.pkg_root ++ ["__init__.py"])
  ∧ check_init_exports (scenario.fs_of scenario.dot_import_files)
      (scenario.pkg_root ++ ["__init__.py"]) scenario.pkg_root
    = Ok [].
Proof. repeat split; by vm_compute. Qed.

(** ** The escape mechanism *)

(** C2, on the code: on a line with both markers, where only the
    [docstring-contract: ignore] marker has a reason after it and
    [noqa: DOC] ends the line, the scan stops at [noqa: DOC], the first
    token of [ESCAPE_TOKENS], and the escape is refused. *)
Theorem stacked_markers_not_honoured :
  escaped_per_spec scenario.stacked_markers_line = true
  ∧ has_escape_with_reason scenario.stacked_markers_line = false.
Proof. split; by vm_compute. Qed.

Lemma find_lower_bound s sub : -1 ≤ str.find s sub.
Proof.
  induction s as [|c s IH]; cbn [str.find].
  - destruct (String.prefix sub ""); lia.
  - destruct (String.prefix sub (String c s)); [lia|].
    destruct (str.find s sub =? -1) eqn:?; lia.
Qed.

Lemma lower_length s : String.length (str.lower s) = String.length s.
Proof. induction s as [|c s IH]; simpl; [done|]. by rewrite IH. Qed.

Lemma drop_empty n : str.drop n "" = "".
Proof. by destruct n. Qed.

(** Where [find] locates the token and text follows it, the token
    occurs with a reason. *)
Lemma find_occurs_with_reason (line lower tok : string) :
  str.find lower tok ≠ -1 →
  (0 <? str.len (str.strip
                   (str.slice_from line
                      (str.find lower tok + Z.of_nat (String.length tok))))) = true →
  occurs_with_reason line lower tok = true.
Proof.
  unfold str.slice_from.
  revert line. induction lower as [|c lower IH]; intros line.
  - cbn [str.find]. destruct (String.prefix tok "") eqn:Hp; [|done].
    intros _. rewrite Z.add_0_l, Nat2Z.id. intros Hreason.
    destruct line; cbn [occurs_with_reason]; by rewrite Hp, Hreason.
  - cbn [str.find]. destruct (String.prefix tok (String c lower)) eqn:Hp.
    + intros _. rewrite Z.add_0_l, Nat2Z.id. intros Hreason.
      destruct line; cbn [occurs_with_reason]; by rewrite Hp, Hreason.
    + pose proof (find_lower_bound lower tok) as Hge.
      destruct (str.find lower tok =? -1) eqn:Hidx; [done|].
      apply Z.eqb_neq in Hidx. intros _.
      replace (Z.to_nat (str.find lower tok + 1 + Z.of_nat (String.length tok)))
        with (S (Z.to_nat (str.find lower tok + Z.of_nat (String.length tok))))
        by lia.
      destruct line as [|c' line]; [done|]. cbn [str.drop]. intros Hreason.
      cbn [occurs_with_reason]. rewrite (IH line Hidx Hreason). apply orb_true_r.
Qed.

(** X3. Whenever the code honours an escape, some escape token occurs in
    the line with a reason after it: a token followed by nothing or by
    white space alone never suppresses a violation. *)
Lemma has_escape_with_reason_sound line :
  has_escape_with_reason line = true → escaped_per_spec line = true.
Proof.
  unfold has_escape_with_reason, escaped_per_spec.
  induction ESCAPE_TOKENS as [|tok toks IH]; simpl; [done|].
  destruct (str.find (str.lower line) (str.lower tok) =? -1) eqn:Hidx.
  - intros H. rewrite (IH H). apply orb_true_r.
  - apply Z.eqb_neq in Hidx. intros Hreason.
    rewrite find_occurs_with_reason; [done|done|].
    by rewrite lower_length.
Qed.

(** ** The scenarios of the specification *)

Example escape_with_reason :
  has_escape_with_reason "def compute():  # noqa: DOC not yet stable" = true.
Proof. reflexivity. Qed.

Example escape_without_reason :
  has_escape_with_reason "def compute():  # noqa: DOC" = false
  ∧ has_escape_with_reason "def compute():  # noqa: DOC   " = false.
Proof. split; reflexivity. Qed.

Example escape_ignores_case :
  has_escape_with_reason "def compute():  # NOQA: doc legacy" = true
  ∧ has_escape_with_reason
      "def compute():  # Docstring-Contract: Ignore legacy" = true.
Proof. split; reflexivity. Qed.

Example private_export_flagged :
  check_init_exports (scenario.fs_of scenario.private_export_files)
    (scenario.pkg_root ++ ["__init__.py"]) scenario.pkg_root
  = Ok [mkViolation (scenario.pkg_root ++ ["__init__.py"]) 1
                    (msg_private "_Hidden")].
Proof. by vm_compute. Qed.

Example api_symbol_flagged :
  check_api_file (scenario.fs_of (scenario.api_metrics "def compute():"))
    (scenario.pkg_root ++ ["api"; "metrics.py"])
  = Ok [mkViolation (scenario.pkg_root ++ ["api"; "metrics.py"]) 3
                    (msg_api_symbol "compute")].
Proof. by vm_compute. Qed.

Example api_symbol_escaped :
  check_api_file
    (scenario.fs_of (scenario.api_metrics "def compute():  # noqa: DOC not yet stable"))
    (scenario.pkg_root ++ ["api"; "metrics.py"])
  = Ok [].
Proof. by vm_compute. Qed.

Example api_symbol_bare_escape :
  check_api_file
    (scenario.fs_of (scenario.api_metrics "def compute():  # noqa: DOC"))
    (scenario.pkg_root ++ ["api"; "metrics.py"])
  = Ok [mkViolation (scenario.pkg_root ++ ["api"; "metrics.py"]) 3
                    (msg_api_symbol "compute")].
Proof. by vm_compute. Qed.

Example core_paths_of_pkg :
  "src/pkg/config/load.py" ∈ core_paths scenario.pkg_root
  ∧ "src/diffusion_core/config/load.py" ∉ core_paths scenario.pkg_root.
Proof. split; by vm_compute. Qed.

(** * Further properties of the enforcer *)

(** ** Strings *)

Lemma string_app_empty_l s : "" +:+ s = s.
Proof. reflexivity. Qed.

Lemma string_app_length s t :
  String.length (s +:+ t) = (String.length s + String.length t)%nat.
Proof.
  induction s as [|c s IH]; [done|]. rewrite string_app_cons. simpl. by rewrite IH.
Qed.

Lemma lower_app s t : str.lower (s +:+ t) = str.lower s +:+ str.lower t.
Proof.
  induction s as [|c s IH]; [done|].
  rewrite string_app_cons. simpl. by rewrite IH, string_app_cons.
Qed.

Lemma lower_drop n s : str.lower (str.drop n s) = str.drop n (str.lower s).
Proof.
  revert s. induction n as [|n IH]; intros [|c s]; simpl; done.
Qed.

Lemma isspace_lower_char c : str.isspace (str.lower_char c) = str.isspace c.
Proof. by destruct c as [[] [] [] [] [] [] [] []]. Qed.

Lemma has_nonspace_lower s : has_nonspace (str.lower s) = has_nonspace s.
Proof.
  induction s as [|c s IH]; simpl; [done|]. by rewrite isspace_lower_char, IH.
Qed.

Lemma has_nonspace_app s t :
  has_nonspace (s +:+ t) = has_nonspace s || has_nonspace t.
Proof.
  induction s as [|c s IH]; [done|].
  rewrite string_app_cons. simpl. rewrite IH. by rewrite orb_assoc.
Qed.

Lemma has_nonspace_rev_app s acc :
  has_nonspace (String.rev_app s acc) = has_nonspace s || has_nonspace acc.
Proof.
  revert acc. induction s as [|c s IH]; intros acc; simpl; [done|].
  rewrite IH. simpl. by destruct (str.isspace c), (has_nonspace s).
Qed.

Lemma has_nonspace_rev s : has_nonspace (String.rev s) = has_nonspace s.
Proof. unfold String.rev. rewrite has_nonspace_rev_app. simpl. apply orb_false_r. Qed.

Lemma has_nonspace_lstrip s : has_nonspace (str.lstrip s) = has_nonspace s.
Proof.
  induction s as [|c s IH]; simpl; [done|].
  destruct (str.isspace c) eqn:Hc; simpl; [done|]. by rewrite Hc.
Qed.

Lemma lstrip_empty s : str.lstrip s = "" ↔ has_nonspace s = false.
Proof.
  induction s as [|c s IH]; simpl; [done|].
  destruct (str.isspace c); simpl; [done|]. split; discriminate.
Qed.

Lemma rev_empty s : String.rev s = "" ↔ s = "".
Proof.
  split; [|by intros ->]. destruct s as [|c s]; [done|].
  unfold String.rev. simpl. rewrite rev_app_append.
  by destruct (String.rev s).
Qed.

(** [s.strip()] is empty exactly when [s] is white space throughout. *)
Lemma strip_empty s : str.strip s = "" ↔ has_nonspace s = false.
Proof.
  unfold str.strip, str.rstrip.
  by rewrite rev_empty, lstrip_empty, has_nonspace_rev, has_nonspace_lstrip.
Qed.

Lemma strip_len_pos s : (0 <? str.len (str.strip s)) = has_nonspace s.
Proof.
  pose proof (strip_empty s) as H. unfold str.len.
  destruct (str.strip s) as [|c t] eqn:Hs; simpl.
  - symmetry. by apply H.
  - destruct (has_nonspace s); [done|]. by destruct H as [_ H]; specialize (H eq_refl).
Qed.

Lemma prefix_empty s : String.prefix "" s = true.
Proof. by destruct s. Qed.

Lemma prefix_app t r : String.prefix t (t +:+ r) = true.
Proof.
  induction t as [|c t IH]; [apply prefix_empty|].
  rewrite string_app_cons. simpl. by destruct (ascii_dec c c).
Qed.

Lemma find_prefix s sub : String.prefix sub s = true → str.find s sub = 0.
Proof. intros H. destruct s; cbn [str.find]; by rewrite H. Qed.

(** An occurrence after [a] bounds where [find] stops. *)
Lemma find_app_bound a t r :
  0 ≤ str.find (a +:+ t +:+ r) t ≤ Z.of_nat (String.length a).
Proof.
  induction a as [|c a IH].
  - rewrite string_app_empty_l, find_prefix by apply prefix_app. simpl. lia.
  - rewrite string_app_cons. cbn [str.find].
    destruct (String.prefix t (String c (a +:+ t +:+ r))); [simpl; lia|].
    destruct (str.find (a +:+ t +:+ r) t =? -1) eqn:Hf.
    + apply Z.eqb_eq in Hf. lia.
    + simpl String.length. lia.
Qed.

Lemma drop_app n a b :
  (n ≤ String.length a)%nat → str.drop n (a +:+ b) = str.drop n a +:+ b.
Proof.
  revert n. induction a as [|c a IH]; intros [|n] Hn; simpl in *; try done; try lia.
  apply IH. lia.
Qed.

(** ** The escape mechanism, continued *)

(** The scan looks at the line itself only for what follows a token,
    and there only for white space: it may as well run on the lowered
    line. *)
Lemma escape_scan_lower line lower toks :
  escape_scan (str.lower line) lower toks = escape_scan line lower toks.
Proof.
  induction toks as [|tok toks IH]; simpl; [done|].
  destruct (str.find lower (str.lower tok) =? -1); [done|].
  unfold str.slice_from.
  by rewrite !strip_len_pos, <-lower_drop, has_nonspace_lower.
Qed.

(** X1. In ASCII lines letter case plays no part anywhere: two ASCII
    definition lines that are equal once lowered get the same escape
    decision. *)
Theorem escape_ignores_case_of_line l1 l2 :
  str.isascii l1 = true → str.isascii l2 = true →
  str.lower l1 = str.lower l2 →
  has_escape_with_reason l1 = has_escape_with_reason l2.
Proof.
  intros _ _ Heq. unfold has_escape_with_reason.
  rewrite <-(escape_scan_lower l1), <-(escape_scan_lower l2). by rewrite Heq.
Qed.

Lemma escape_ignores_case_of_line_witness :
  has_escape_with_reason "def Compute():  # NoQA: Doc Legacy shim"
  = has_escape_with_reason "DEF COMPUTE():  # noqa: DOC legacy SHIM".
Proof.
  apply (escape_ignores_case_of_line
           "def Compute():  # NoQA: Doc Legacy shim"
           "DEF COMPUTE():  # noqa: DOC legacy SHIM").
  - reflexivity.
  - reflexivity.
  - reflexivity.
Defined.

(** X2. In an ASCII line a [noqa: DOC] marker, in any letter case, with
    a reason after it always escapes, whatever stands before it on the
    line. *)
Theorem noqa_with_reason_escapes pre marker reason :
  str.isascii (pre +:+ marker +:+ reason) = true →
  str.lower marker = "noqa: doc" →
  str.strip reason ≠ "" →
  has_escape_with_reason (pre +:+ marker +:+ reason) = true.
Proof.
  intros _ Hmarker Hreason.
  assert (has_nonspace reason = true) as Hns.
  { destruct (has_nonspace reason) eqn:Hn; [done|]. by apply strip_empty in Hn. }
  assert (String.length marker = 9%nat) as Hlen.
  { by rewrite <-lower_length, Hmarker. }
  unfold has_escape_with_reason, ESCAPE_TOKENS. cbn [escape_scan].
  change (str.lower "noqa: DOC") with "noqa: doc".
  rewrite !lower_app, Hmarker.
  pose proof (find_app_bound (str.lower pre) "noqa: doc" (str.lower reason)) as Hb.
  rewrite lower_length in Hb.
  set (idx := str.find _ "noqa: doc") in *.
  destruct (idx =? -1) eqn:Hidx; [apply Z.eqb_eq in Hidx; lia|].
  rewrite strip_len_pos. unfold str.slice_from.
  rewrite <-(string_app_assoc pre marker reason), drop_app.
  - rewrite has_nonspace_app, Hns. apply orb_true_r.
  - rewrite string_app_length, Hlen. unfold str.len. simpl String.length. lia.
Qed.

Lemma noqa_with_reason_escapes_witness :
  has_escape_with_reason
    ("def compute():  # docstring-contract: ignore  # " +:+ "NOQA: doc" +:+ " kept for v1")
  = true.
Proof.
  apply (noqa_with_reason_escapes
           "def compute():  # docstring-contract: ignore  # " "NOQA: doc" " kept for v1").
  - reflexivity.
  - reflexivity.
  - by vm_compute.
Defined.

Lemma has_escape_with_reason_sound_witness :
  escaped_per_spec "def compute():  # docstring-contract: ignore generated" = true.
Proof.
  apply (has_escape_with_reason_sound
           "def compute():  # docstring-contract: ignore generated").
  reflexivity.
Defined.

(** ** The import map, continued *)

Lemma bind_aliases_is_Some base names m (x : string) :
  is_Some (foldl (bind_alias base) m names !! x) ↔
  is_Some (m !! x)
  ∨ existsb (λ a, bool_decide (or_else (ast.asname a) (ast.name a) = x)) names = true.
Proof.
  revert m. induction names as [|a names IH]; intros m; simpl.
  - split; [by left|]. by intros [?|?].
  - rewrite IH. unfold bind_alias at 1. rewrite lookup_insert_is_Some.
    rewrite orb_true_iff, bool_decide_eq_true.
    destruct (decide (or_else (ast.asname a) (ast.name a) = x)); tauto.
Qed.

Lemma bind_imports_is_Some body m (x : string) :
  is_Some (foldl bind_import m body !! x) ↔
  is_Some (m !! x) ∨ existsb (binds x) body = true.
Proof.
  revert m. induction body as [|node body IH]; intros m; simpl.
  - split; [by left|]. by intros [?|?].
  - rewrite IH, orb_true_iff.
    assert (is_Some (bind_import m node !! x) ↔
            is_Some (m !! x) ∨ binds x node = true) as ->; [|tauto].
    destruct node; simpl; try (split; [by left|by intros [?|?]]).
    destruct (1 <=? level); simpl.
    + apply bind_aliases_is_Some.
    + split; [by left|]. by intros [?|?].
Qed.

(** X4. A name is a key of the import map exactly when some relative
    import statement of the module body binds it: absolute imports and
    all other statements leave the map alone. *)
Theorem import_map_domain mod_ (x : string) :
  is_Some (import_map_from_init mod_ !! x) ↔
  existsb (binds x) (ast.body mod_) = true.
Proof.
  unfold import_map_from_init. rewrite bind_imports_is_Some.
  rewrite lookup_empty. split; [|by right]. intros [[? [=]]|?]; done.
Qed.

Lemma bind_aliases_entry base names m (x : string) v :
  foldl (bind_alias base) m names !! x = Some v →
  m !! x = Some v
  ∨ ∃ a, a ∈ names ∧ or_else (ast.asname a) (ast.name a) = x
         ∧ v = (base, ast.name a).
Proof.
  revert m. induction names as [|a names IH]; intros m; simpl; [by left|].
  intros [Hm|(a' & Ha' & Hx & Hv)]%IH.
  - unfold bind_alias in Hm. apply lookup_insert_Some in Hm as [[Hx <-]|[_ Hm]].
    + right. exists a. split; [apply list_elem_of_here|done].
    + by left.
  - right. exists a'. split; [by apply list_elem_of_further|done].
Qed.

Lemma bind_imports_entry body m (x : string) v :
  foldl bind_import m body !! x = Some v →
  m !! x = Some v
  ∨ ∃ module names level a,
      ast.ImportFrom module names level ∈ body ∧ 1 ≤ level ∧ a ∈ names
      ∧ or_else (ast.asname a) (ast.name a) = x
      ∧ v = (or_else module "", ast.name a).
Proof.
  revert m. induction body as [|node body IH]; intros m; simpl; [by left|].
  intros [Hm|(md & ns & lv & a & Hin & ?)]%IH.
  - destruct node; simpl in Hm; try by left.
    destruct (1 <=? level) eqn:Hl; [|by left].
    apply bind_aliases_entry in Hm as [Hm|(a & Ha & Hx & Hv)]; [by left|].
    right. exists module, names, level, a.
    split; [apply list_elem_of_here|]. apply Z.leb_le in Hl. done.
  - right. exists md, ns, lv, a. split; [by apply list_elem_of_further|done].
Qed.

(** X5. Every entry of the import map comes from an alias of a relative
    import statement of the module body: the key is the alias' [asname]
    (or its name), the value the statement's module (or the empty
    string) and the alias' name. *)
Theorem import_map_entry_origin mod_ (x : string) base original :
  import_map_from_init mod_ !! x = Some (base, original) →
  ∃ module names level a,
    ast.ImportFrom module names level ∈ ast.body mod_ ∧ 1 ≤ level ∧ a ∈ names
    ∧ or_else (ast.asname a) (ast.name a) = x
    ∧ base = or_else module "" ∧ original = ast.name a.
Proof.
  intros [Hm|(md & ns & lv & a & ? & ? & ? & ? & [= -> ->])]%bind_imports_entry.
  - by rewrite lookup_empty in Hm.
  - by exists md, ns, lv, a.
Qed.

Lemma import_map_entry_origin_witness :
  ∃ module names level a,
    ast.ImportFrom module names level ∈ ast.body scenario.renamed_init
    ∧ 1 ≤ level ∧ a ∈ names
    ∧ or_else (ast.asname a) (ast.name a) = "Baz"
    ∧ "bar" = or_else module "" ∧ "Foo" = ast.name a.
Proof.
  apply (import_map_entry_origin scenario.renamed_init "Baz" "bar" "Foo").
  by vm_compute.
Defined.

(** ** The export list, continued *)

Lemma extract_all_body_skip pre rest :
  existsb assigns_all pre = false →
  extract_all_body (pre ++ rest) = extract_all_body rest.
Proof.
  induction pre as [|node pre IH]; simpl; [done|].
  intros [Hn Hp]%orb_false_elim.
  destruct node; simpl in *; try by apply IH.
  rewrite all_in_targets_spec, Hn. by apply IH.
Qed.

Lemma all_items_of_strings names items :
  all_items (str_constant <$> names) items = Ok (items ++ names).
Proof.
  revert items. induction names as [|n names IH]; intros items; simpl.
  - by rewrite app_nil_r.
  - rewrite IH. by rewrite <-app_assoc.
Qed.

(** X6. The first top-level assignment to [__all__] decides alone: what
    stands after it in the module, be it another assignment to [__all__]
    with a computed value, is never looked at. *)
Theorem first_all_assignment_decides pre stmt post :
  existsb assigns_all pre = false →
  assigns_all stmt = true →
  extract_all_list (ast.mkModule (pre ++ stmt :: post))
  = extract_all_list (ast.mkModule [stmt]).
Proof.
  intros Hpre Hstmt. unfold extract_all_list. simpl.
  rewrite extract_all_body_skip by done.
  destruct stmt; simpl in *; try done.
  rewrite all_in_targets_spec, Hstmt. done.
Qed.

Lemma first_all_assignment_decides_witness :
  extract_all_list
    (ast.mkModule ([scenario.doc "Package."]
                   ++ scenario.all_list ["load"]
                   :: [ast.Assign [ast.Name "__all__"] ast.OtherExpr]))
  = extract_all_list (ast.mkModule [scenario.all_list ["load"]]).
Proof.
  apply (first_all_assignment_decides
           [scenario.doc "Package."] (scenario.all_list ["load"])
           [ast.Assign [ast.Name "__all__"] ast.OtherExpr]); reflexivity.
Defined.

(** X7. A literal list or tuple of string constants assigned to
    [__all__] is returned as it stands: the same names, in the same
    order, repeated names included. *)
Theorem export_list_round_trip pre targets tuple names post :
  existsb assigns_all pre = false →
  existsb is_all_target targets = true →
  extract_all_list
    (ast.mkModule (pre ++ ast.Assign targets (literal_of tuple names) :: post))
  = Ok (Some names).
Proof.
  intros Hpre Htargets. unfold extract_all_list. simpl.
  rewrite extract_all_body_skip by done. simpl.
  rewrite all_in_targets_spec, Htargets.
  destruct tuple; simpl; by rewrite all_items_of_strings.
Qed.

Lemma export_list_round_trip_witness :
  extract_all_list
    (ast.mkModule ([scenario.doc "Package."]
                   ++ ast.Assign [ast.Name "exports"; ast.Name "__all__"]
                                 (literal_of true ["b"; "a"; "b"])
                   :: [ast.OtherStmt]))
  = Ok (Some ["b"; "a"; "b"]).
Proof.
  apply (export_list_round_trip
           [scenario.doc "Package."] [ast.Name "exports"; ast.Name "__all__"]
           true ["b"; "a"; "b"] [ast.OtherStmt]); reflexivity.
Defined.

(** ** Top-level definitions *)

Lemma find_def_app (name : string) defs1 defs2 :
  Forall (λ d, def_name d ≠ name) defs1 →
  List.find (λ node, bool_decide (def_name node = name)) (defs1 ++ defs2)
  = List.find (λ node, bool_decide (def_name node = name)) defs2.
Proof.
  induction 1 as [|d defs1 Hd _ IH]; simpl; [done|].
  by rewrite bool_decide_eq_false_2.
Qed.

(** X8. Of several top-level definitions of one name the first in the
    module body is the one found. *)
Theorem first_definition_wins mod_ pre node post d :
  ast.body mod_ = pre ++ node :: post →
  as_top_level_def node = Some d →
  forallb (λ d', negb (bool_decide (def_name d' = def_name d)))
          (top_level_defs (ast.mkModule pre)) = true →
  find_top_level_symbol mod_ (def_name d) = Some d.
Proof.
  intros Hbody Hnode Hpre. unfold find_top_level_symbol, top_level_defs in *.
  rewrite Hbody, omap_app. simpl in *. rewrite Hnode.
  rewrite find_def_app.
  - simpl. by rewrite bool_decide_eq_true_2.
  - apply Forall_forall. intros d' Hd'.
    rewrite forallb_forall in Hpre. apply list_elem_of_In, Hpre in Hd'.
    by apply negb_true_iff, bool_decide_eq_false in Hd'.
Qed.

Lemma first_definition_wins_witness :
  find_top_level_symbol scenario.twice_defined "load"
  = Some (mkDef "load" 4 [ast.OtherStmt]).
Proof.
  apply (first_definition_wins scenario.twice_defined
           [ scenario.doc "Loader.";
             ast.Assign [ast.Name "load"] ast.OtherExpr ]
           (ast.FunctionDef "load" 4 [ast.OtherStmt])
           [ ast.FunctionDef "load" 8 [scenario.doc "Documented."; ast.OtherStmt] ]
           (mkDef "load" 4 [ast.OtherStmt])); reflexivity.
Defined.


(** ** The API tier *)

Lemma foldl_check_api_def p lines v defs :
  foldl (check_api_def p lines) v defs
  = v ++ (api_violation p <$> List.filter (needs_doc lines) defs).
Proof.
  revert v. induction defs as [|d defs IH]; intros v; simpl.
  - by rewrite app_nil_r.
  - rewrite IH. unfold check_api_def at 1, needs_doc at 2.
    destruct (is_public_name (def_name d)); simpl; [|done].
    destruct (has_doc d); simpl; [done|].
    destruct (has_escape_with_reason _); simpl; [done|].
    by rewrite <-app_assoc.
Qed.

(** X10. The check of an API file reports, after the violation for a
    missing header docstring, exactly the public top-level definitions
    that have neither a docstring nor an honoured escape on their
    definition line: one violation each, at the file and at the line of
    the definition, in the order of the source. *)
Theorem check_api_file_reports fs p src tree :
  fs p = Some (RegularFile src) →
  parsed src = inl tree →
  check_api_file fs p =
  Ok (api_header p tree
      ++ (api_violation p <$>
          List.filter (needs_doc (text_lines src)) (top_level_defs tree))).
Proof.
  intros Hfile Htree.
  destruct (parse_py_of_source _ _ _ _ Hfile Htree) as [Hparse Hlines].
  unfold check_api_file, api_header. rewrite Hparse, Hlines. simpl.
  rewrite foldl_check_api_def. by destruct (module_docstring_ok tree).
Qed.

Lemma check_api_file_reports_witness :
  check_api_file (scenario.fs_of (scenario.api_metrics "def compute():  # noqa: DOC"))
    (scenario.pkg_root ++ ["api"; "metrics.py"])
  = Ok ([] ++ [mkViolation (scenario.pkg_root ++ ["api"; "metrics.py"]) 3
                           (msg_api_symbol "compute")]).
Proof.
  apply (check_api_file_reports
           (scenario.fs_of (scenario.api_metrics "def compute():  # noqa: DOC"))
           (scenario.pkg_root ++ ["api"; "metrics.py"])
           (mkSource
              (inl (ast.mkModule
                      [ scenario.doc "Metrics.";
                        ast.FunctionDef "compute" 3 [ast.OtherStmt];
                        ast.FunctionDef "_helper" 6 [ast.OtherStmt] ]))
              [ "'''Metrics.'''"; ""; "def compute():  # noqa: DOC"; "    pass"; "";
                "def _helper():"; "    pass" ])
           (ast.mkModule
              [ scenario.doc "Metrics.";
                ast.FunctionDef "compute" 3 [ast.OtherStmt];
                ast.FunctionDef "_helper" 6 [ast.OtherStmt] ])); reflexivity.
Defined.

(** ** The entry tier, continued *)

Lemma check_export_clean fs init_path pkg imports name :
  check_export fs init_path pkg imports [] name = Ok []
  ↔ export_clean fs pkg imports name.
Proof.
  unfold check_export, export_clean. split.
  - destruct (str.startswith name "_"); [done|].
    destruct (imports !! name) as [[base original]|] eqn:Himp; [|done].
    destruct (resolve_module_file fs pkg base) as [mod_file|] eqn:Hres; [|done].
    unfold parse_py, get_lines, read_text.
    destruct (fs mod_file) as [[src|]|] eqn:Hfile; simpl; try done.
    destruct (parsed src) as [mod_tree|e] eqn:Hsrc; simpl; [|done].
    destruct (find_top_level_symbol mod_tree original) as [sym|] eqn:Hsym; [|done].
    intros H. split; [done|].
    exists base, original, mod_file, src, mod_tree, sym.
    repeat split; try done.
    destruct (has_doc sym); [done|]. simpl in *.
    by destruct (has_escape_with_reason _).
  - intros (-> & base & original & mod_file & src & mod_tree & sym
            & -> & -> & Hfile & Hsrc & Hsym & Hdoc).
    destruct (parse_py_of_source _ _ _ _ Hfile Hsrc) as [-> Hlines]. simpl.
    rewrite Hsym. destruct (has_doc sym); [done|].
    rewrite Hlines. simpl in *. by rewrite Hdoc.
Qed.

Lemma concat_nil {A} (ls : list (list A)) :
  concat ls = [] ↔ Forall (λ l, l = []) ls.
Proof.
  induction ls as [|l ls IH]; simpl.
  - split; [constructor|done].
  - split.
    + intros [-> Hls]%app_eq_nil. constructor; [done|]. by apply IH.
    + intros Hall. inversion Hall as [|?? -> Hls]; subst. simpl. by apply IH.
Qed.

(** X11. The check of the entry file returns without a single violation
    exactly when the file has a header docstring and every name of its
    export list is public and traced, through a relative import, to a
    top-level definition that has a docstring or an honoured escape. *)
Theorem entry_clean_iff fs init_path pkg tree exported :
  parse_py fs init_path = Ok tree →
  extract_all_list tree = Ok (Some exported) →
  check_init_exports fs init_path pkg = Ok []
  ↔ module_docstring_ok tree = true
    ∧ Forall (export_clean fs pkg (import_map_from_init tree)) exported.
Proof.
  intros Hparse Hall.
  rewrite (check_init_exports_by_name _ _ _ _ _ _ Hparse Hall).
  unfold init_header. split.
  - intros (vss & Hforall & Heq). symmetry in Heq.
    apply app_eq_nil in Heq as [Hhead Hnil].
    split; [by destruct (module_docstring_ok tree)|].
    apply concat_nil in Hnil.
    clear Hhead Hall. induction Hforall as [|name vs_n exported' vss' Hrun _ IH].
    + constructor.
    + inversion Hnil as [|?? -> Hnil']; subst.
      constructor; [by apply check_export_clean in Hrun|by apply IH].
  - intros [-> Hclean]. exists (replicate (length exported) []). clear Hall. split.
    + induction Hclean as [|name exported' Hname _ IH]; simpl; constructor.
      * by eapply check_export_clean.
      * done.
    + simpl. symmetry. apply concat_nil, Forall_replicate. done.
Qed.

Lemma entry_clean_iff_witness :
  check_init_exports (scenario.fs_of scenario.clean_files)
    (scenario.pkg_root ++ ["__init__.py"]) scenario.pkg_root = Ok []
  ↔ module_docstring_ok scenario.clean_init = true
    ∧ Forall (export_clean (scenario.fs_of scenario.clean_files) scenario.pkg_root
                (import_map_from_init scenario.clean_init))
             ["Foo"; "legacy"].
Proof.
  apply (entry_clean_iff (scenario.fs_of scenario.clean_files)
           (scenario.pkg_root ++ ["__init__.py"]) scenario.pkg_root
           scenario.clean_init ["Foo"; "legacy"]).
  - vm_compute. reflexivity.
  - vm_compute. reflexivity.
Defined.

Lemma check_export_at_most_one fs init_path pkg imports name vs :
  check_export fs init_path pkg imports [] name = Ok vs → (length vs ≤ 1)%nat.
Proof.
  unfold check_export.
  destruct (str.startswith name "_"); [by intros [= <-]|].
  destruct (imports !! name) as [[base original]|]; [|by intros [= <-]].
  destruct (resolve_module_file fs pkg base) as [mod_file|]; [|by intros [= <-]].
  destruct (parse_py fs mod_file) as [mod_tree|e]; simpl; [|done].
  destruct (find_top_level_symbol mod_tree original) as [sym|]; [|by intros [= <-]].
  destruct (has_doc sym); [intros [= <-]; simpl; lia|].
  destruct (get_lines fs mod_file) as [lines|e]; simpl; [|done].
  destruct (has_escape_with_reason _); intros [= <-]; simpl; lia.
Qed.

(** X12. The check of the entry file reports at most one violation for
    each entry of the export list, and one more for the header. *)
Theorem entry_violations_bounded fs init_path pkg tree exported vs :
  parse_py fs init_path = Ok tree →
  extract_all_list tree = Ok (Some exported) →
  check_init_exports fs init_path pkg = Ok vs →
  (length vs ≤ S (length exported))%nat.
Proof.
  intros Hparse Hall Hvs.
  apply (check_init_exports_by_name _ _ _ _ _ _ Hparse Hall) in Hvs
    as (vss & Hforall & ->).
  rewrite length_app.
  assert (length (init_header init_path tree) ≤ 1)%nat
    by (unfold init_header; destruct (module_docstring_ok tree); simpl; lia).
  assert (length (concat vss) ≤ length exported)%nat; [|lia].
  clear Hall.
  induction Hforall as [|name vs_n exported' vss' Hrun _ IH]; simpl; [lia|].
  rewrite length_app. apply check_export_at_most_one in Hrun. lia.
Qed.

Lemma entry_violations_bounded_witness :
  (length [scenario.v_bar_Foo; scenario.v_init_private] ≤ S (length ["Foo"; "_x"]))%nat.
Proof.
  apply (entry_violations_bounded (scenario.fs_of scenario.unsorted_files)
           (scenario.pkg_root ++ ["__init__.py"]) scenario.pkg_root
           (ast.mkModule
              [ scenario.doc "Package.";
                ast.ImportFrom (Some "bar") [ast.Alias "Foo" None] 1;
                scenario.all_list ["Foo"; "_x"] ])
           ["Foo"; "_x"]).
  - vm_compute. reflexivity.
  - vm_compute. reflexivity.
  - vm_compute. reflexivity.
Defined.

(** X13. A name of the export list that starts with an underscore is
    flagged at line 1 of the entry file whatever the imports and the
    files say: nothing is resolved or opened for it. *)
Theorem private_export_always_flagged fs init_path pkg tree exported name vs :
  parse_py fs init_path = Ok tree →
  extract_all_list tree = Ok (Some exported) →
  name ∈ exported →
  str.startswith name "_" = true →
  check_init_exports fs init_path pkg = Ok vs →
  mkViolation init_path 1 (msg_private name) ∈ vs
  ∧ ∀ fs' pkg' imports' v,
      check_export fs' init_path pkg' imports' v name
      = Ok (v ++ [mkViolation init_path 1 (msg_private name)]).
Proof.
  intros Hparse Hall Hin Hprivate Hvs.
  assert (∀ fs' pkg' imports' v,
            check_export fs' init_path pkg' imports' v name
            = Ok (v ++ [mkViolation init_path 1 (msg_private name)])) as Hone.
  { intros. unfold check_export. by rewrite Hprivate. }
  split; [|done].
  eapply (check_init_exports_member _ _ _ _ _ _ _ _ Hparse Hall Hin); [|done|].
  - apply Hone.
  - apply list_elem_of_here.
Qed.

Lemma private_export_always_flagged_witness :
  mkViolation (scenario.pkg_root ++ ["__init__.py"]) 1 (msg_private "_x")
  ∈ [scenario.v_bar_Foo; scenario.v_init_private]
  ∧ ∀ fs' pkg' imports' v,
      check_export fs' (scenario.pkg_root ++ ["__init__.py"]) pkg' imports' v "_x"
      = Ok (v ++ [mkViolation (scenario.pkg_root ++ ["__init__.py"]) 1
                              (msg_private "_x")]).
Proof.
  apply (private_export_always_flagged (scenario.fs_of scenario.unsorted_files)
           (scenario.pkg_root ++ ["__init__.py"]) scenario.pkg_root
           (ast.mkModule
              [ scenario.doc "Package.";
                ast.ImportFrom (Some "bar") [ast.Alias "Foo" None] 1;
                scenario.all_list ["Foo"; "_x"] ])
           ["Foo"; "_x"] "_x").
  - vm_compute. reflexivity.
  - vm_compute. reflexivity.
  - apply list_elem_of_further, list_elem_of_here.
  - reflexivity.
  - vm_compute. reflexivity.
Defined.

(** X14. When a public export is traced to a module file that does not
    parse, the check of the entry file leaves with an exception and
    returns no violations; at that export it is the [SystemExit] with the
    syntax error of the module file. *)
Theorem origin_syntax_error_aborts
    fs init_path pkg tree exported name base original mod_file src e :
  parse_py fs init_path = Ok tree →
  extract_all_list tree = Ok (Some exported) →
  name ∈ exported →
  str.startswith name "_" = false →
  import_map_from_init tree !! name = Some (base, original) →
  resolve_module_file fs pkg base = Some mod_file →
  fs mod_file = Some (RegularFile src) →
  parsed src = inr e →
  (∀ v, check_export fs init_path pkg (import_map_from_init tree) v name
        = Raise (SystemExit (msg_syntax_error mod_file e)))
  ∧ ∃ err, check_init_exports fs init_path pkg = Raise err.
Proof.
  intros Hparse Hall Hin Hpub Himp Hres Hfile Hsrc.
  assert (∀ v, check_export fs init_path pkg (import_map_from_init tree) v name
               = Raise (SystemExit (msg_syntax_error mod_file e))) as Hone.
  { intros v. unfold check_export, parse_py, read_text.
    rewrite Hpub, Himp, Hres, Hfile. simpl. by rewrite Hsrc. }
  split; [done|].
  unfold check_init_exports. rewrite Hparse. simpl. rewrite Hall. simpl.
  eapply for_each_raises; [done|]. intros acc. eexists. apply Hone.
Qed.

Lemma origin_syntax_error_aborts_witness :
  (∀ v, check_export (scenario.fs_of scenario.broken_origin_files)
          (scenario.pkg_root ++ ["__init__.py"]) scenario.pkg_root
          (import_map_from_init scenario.clean_init) v "legacy"
        = Raise (SystemExit (msg_syntax_error (scenario.pkg_root ++ ["bar.py"])
                                              scenario.bar_syntax_error)))
  ∧ ∃ err, check_init_exports (scenario.fs_of scenario.broken_origin_files)
             (scenario.pkg_root ++ ["__init__.py"]) scenario.pkg_root
           = Raise err.
Proof.
  apply (origin_syntax_error_aborts (scenario.fs_of scenario.broken_origin_files)
           (scenario.pkg_root ++ ["__init__.py"]) scenario.pkg_root
           scenario.clean_init ["Foo"; "legacy"] "legacy" "bar" "legacy"
           (scenario.pkg_root ++ ["bar.py"])
           (mkSource (inr scenario.bar_syntax_error)
                     [ "'''Bar.'''"; ""; "class Foo(:" ])
           scenario.bar_syntax_error).
  - vm_compute. reflexivity.
  - vm_compute. reflexivity.
  - apply list_elem_of_further, list_elem_of_here.
  - reflexivity.
  - vm_compute. reflexivity.
  - vm_compute. reflexivity.
  - reflexivity.
  - reflexivity.
Defined.

(** ** Where violations are reported *)

Lemma check_api_file_path fs p vs :
  check_api_file fs p = Ok vs → ∀ v, v ∈ vs → vpath v = p.
Proof.
  unfold check_api_file.
  destruct (parse_py fs p) as [tree|e]; simpl; [|done].
  destruct (get_lines fs p) as [lines|e]; simpl; [|done].
  rewrite foldl_check_api_def. intros [= <-] v [Hv|Hv]%elem_of_app.
  - destruct (module_docstring_ok tree); simpl in Hv.
    + by apply elem_of_nil in Hv.
    + by apply list_elem_of_singleton in Hv as ->.
  - by apply list_elem_of_fmap in Hv as (d & -> & _).
Qed.

Lemma check_core_module_path fs p vs :
  check_core_module fs p = Ok vs → ∀ v, v ∈ vs → vpath v = p.
Proof.
  unfold check_core_module.
  destruct (parse_py fs p) as [tree|e]; simpl; [|done].
  intros [= <-] v Hv. destruct (module_docstring_ok tree); simpl in Hv.
  - by apply elem_of_nil in Hv.
  - by apply list_elem_of_singleton in Hv as ->.
Qed.

Lemma no_char_rev_app c s acc :
  no_char c (String.rev_app s acc) = no_char c s && no_char c acc.
Proof.
  revert acc. induction s as [|a s IH]; intros acc; simpl; [done|].
  rewrite IH. simpl. by destruct (negb (Ascii.eqb a c)), (no_char c s).
Qed.

(** The pieces of a split hold no separator. *)
Lemma split_go_no_sep sep cur s :
  no_char sep cur = true →
  Forall (λ c, no_char sep c = true) (str.split_go sep cur s).
Proof.
  revert cur. induction s as [|a s IH]; intros cur Hcur; simpl.
  - constructor; [|constructor]. unfold String.rev.
    by rewrite no_char_rev_app, Hcur.
  - destruct (Ascii.eqb a sep) eqn:Ha.
    + constructor; [|by apply IH]. unfold String.rev.
      by rewrite no_char_rev_app, Hcur.
    + apply IH. simpl. by rewrite Ha, Hcur.
Qed.

Lemma parts_of_components s :
  Forall (λ c, is_component c = true) (path.parts_of s).
Proof.
  unfold path.parts_of, str.split.
  pose proof (split_go_no_sep "/" "" s eq_refl) as H.
  induction H as [|c l Hc _ IH]; simpl; [constructor|].
  destruct (bool_decide (c = "")) eqn:He; simpl; [done|].
  destruct (bool_decide (c = ".")) eqn:Hd; simpl; [done|].
  constructor; [|done]. unfold is_component. by rewrite He, Hd, Hc.
Qed.

(** The text of a relative path does not start with a slash. *)
Lemma to_str_relative rel suffix :
  Forall (λ c, is_component c = true) rel →
  str.startswith (path.to_str rel +:+ suffix) "/" = false.
Proof.
  destruct rel as [|c rel]; [done|].
  intros [Hc _]%Forall_cons. unfold is_component in Hc.
  destruct c as [|a c]; [done|]. simpl in Hc.
  apply andb_prop in Hc as [_ [Ha _]%andb_prop].
  apply negb_true_iff in Ha.
  assert (∀ t, str.startswith (String a t) "/" = false) as Hstart.
  { intros t. unfold str.startswith. cbn [String.prefix].
    destruct (ascii_dec "/" a) as [<-|]; [|done].
    by rewrite Ascii.eqb_refl in Ha. }
  unfold path.to_str.
  destruct rel as [|q rel]; cbn [str.join]; rewrite ?string_app_cons; apply Hstart.
Qed.

(** What module resolution returns exists and lies below the package. *)
Lemma resolve_module_file_below fs pkg dotted p :
  resolve_module_file fs pkg dotted = Some p →
  exists_ fs p = true ∧ ∃ rest, p = pkg ++ rest.
Proof.
  unfold resolve_module_file.
  set (rel := if bool_decide (dotted = "") then [] else _).
  assert (Forall (λ c, is_component c = true) rel) as Hrel.
  { unfold rel. case_bool_decide; [constructor|apply parts_of_components]. }
  rewrite (div_relative pkg _ (to_str_relative rel ".py" Hrel)).
  rewrite (div_relative (pkg ++ rel) "__init__.py" eq_refl).
  repeat case_match; intros [= <-]; simplify_eq; (split; [done|]).
  all: rewrite <-?app_assoc; by eexists.
Qed.

Lemma check_export_path fs init_path pkg imports name vs :
  check_export fs init_path pkg imports [] name = Ok vs →
  ∀ v, v ∈ vs → vpath v = init_path ∨ ∃ rest, vpath v = pkg ++ rest.
Proof.
  unfold check_export.
  destruct (str.startswith name "_").
  { intros [= <-] v ->%list_elem_of_singleton. by left. }
  destruct (imports !! name) as [[base original]|].
  2:{ intros [= <-] v ->%list_elem_of_singleton. by left. }
  destruct (resolve_module_file fs pkg base) as [mod_file|] eqn:Hres.
  2:{ intros [= <-] v ->%list_elem_of_singleton. by left. }
  apply resolve_module_file_below in Hres as [_ Hbelow].
  destruct (parse_py fs mod_file) as [mod_tree|e]; simpl; [|done].
  destruct (find_top_level_symbol mod_tree original) as [sym|].
  2:{ intros [= <-] v ->%list_elem_of_singleton. by right. }
  destruct (has_doc sym); [by intros [= <-] v ?%elem_of_nil|].
  destruct (get_lines fs mod_file) as [lines|e]; simpl; [|done].
  destruct (has_escape_with_reason _); [by intros [= <-] v ?%elem_of_nil|].
  intros [= <-] v ->%list_elem_of_singleton. by right.
Qed.

Lemma check_init_exports_path fs init_path pkg vs :
  check_init_exports fs init_path pkg = Ok vs →
  ∀ v, v ∈ vs → vpath v = init_path ∨ ∃ rest, vpath v = pkg ++ rest.
Proof.
  unfold check_init_exports.
  destruct (parse_py fs init_path) as [tree|e]; simpl; [|done].
  destruct (extract_all_list tree) as [[exported|]|e]; simpl; [| |done].
  - rewrite for_each_accumulates by apply check_export_accumulates.
    intros (vss & Hforall & ->) v [Hv|Hv]%elem_of_app.
    + left. destruct (module_docstring_ok tree); simpl in Hv.
      * by apply elem_of_nil in Hv.
      * by apply list_elem_of_singleton in Hv as ->.
    + apply elem_of_concat in Hv as (vs_n & Hin & Hv).
      apply list_elem_of_lookup in Hin as [i Hi].
      destruct (Forall2_lookup_r _ _ _ _ _ Hforall Hi) as (name & _ & Hrun).
      by eapply check_export_path.
  - intros [= <-] v [Hv|Hv]%elem_of_app; left.
    + destruct (module_docstring_ok tree); simpl in Hv.
      * by apply elem_of_nil in Hv.
      * by apply list_elem_of_singleton in Hv as ->.
    + by apply list_elem_of_singleton in Hv as ->.
Qed.

Lemma relative_to_below (root rest : Path) :
  is_Some (path.relative_to (root ++ rest) root).
Proof. rewrite relative_to_app. by eexists. Qed.

Lemma relative_to_Some (p root rel : Path) :
  path.relative_to p root = Some rel → p = root ++ rel.
Proof.
  revert p. induction root as [|r root IH]; intros p; simpl.
  - by intros [= ->].
  - destruct p as [|c p]; [done|]. case_bool_decide; [|done].
    subst. intros Hp. f_equal. by apply IH.
Qed.

(** The root is a directory: it cannot be read as the entry file. *)
Lemma check_init_exports_root w pkg :
  ∃ e, check_init_exports (fs w) (ROOT w) pkg = Raise e.
Proof.
  unfold check_init_exports, parse_py, read_text.
  pose proof (ROOT_is_dir w) as Hdir. unfold is_dir in Hdir.
  destruct (fs w (ROOT w)) as [[]|]; try done. by eexists.
Qed.

(** The loop of [main] records violations for files of the repository
    only, wherever the package directory is. *)
Lemma check_target_below_root w pkg t vs :
  check_target w pkg [] t = Ok vs →
  ∀ v, v ∈ vs → is_Some (path.relative_to (vpath v) (ROOT w)).
Proof.
  unfold check_target.
  destruct (path.relative_to t (ROOT w)) as [rel|] eqn:Ht.
  2:{ by intros [= <-] v ?%elem_of_nil. }
  destruct (path.relative_to (init_path _) (ROOT w)) as [init_rel|] eqn:Hinit;
    [|done].
  case_bool_decide.
  { destruct (check_init_exports _ _ _) as [vs'|e] eqn:Hcheck; simpl; [|done].
    intros [= <-] v Hv. simpl in Hv.
    destruct (check_init_exports_path _ _ _ _ Hcheck v Hv) as [->|[rest ->]].
    - by rewrite Hinit.
    - apply relative_to_Some in Hinit as Hinit'. rewrite init_path_eq in Hinit'.
      destruct init_rel as [|x init_rel _] using rev_ind.
      + rewrite app_nil_r in Hinit'. rewrite init_path_eq, Hinit' in Hcheck.
        destruct (check_init_exports_root w pkg) as [e He]. congruence.
      + rewrite app_assoc in Hinit'. apply app_inj_tail in Hinit' as [-> _].
        rewrite <-app_assoc. apply relative_to_below. }
  destruct (exists_ (fs w) _ && path.in_parents _ t).
  { destruct (check_api_file _ _) as [vs'|e] eqn:Hcheck; simpl; [|done].
    intros [= <-] v Hv. simpl in Hv.
    rewrite (check_api_file_path _ _ _ Hcheck v Hv), Ht. by eexists. }
  case_bool_decide.
  { destruct (check_core_module _ _) as [vs'|e] eqn:Hcheck; simpl; [|done].
    intros [= <-] v Hv. simpl in Hv.
    rewrite (check_core_module_path _ _ _ Hcheck v Hv), Ht. by eexists. }
  by intros [= <-] v ?%elem_of_nil.
Qed.

Lemma collect_below_root w pkg targets vs :
  collect w pkg targets = Ok vs →
  ∀ v, v ∈ vs → is_Some (path.relative_to (vpath v) (ROOT w)).
Proof.
  intros (vss & Hforall & ->)%collect_concat v (vs_t & Hin & Hv)%elem_of_concat.
  apply list_elem_of_lookup in Hin as [i Hi].
  destruct (Forall2_lookup_r _ _ _ _ _ Hforall Hi) as (t & _ & Hrun).
  rewrite collect_single in Hrun. by eapply check_target_below_root.
Qed.

(** The report has one line for each violation, in the order of the
    list: the path below the root, the line number and the message. *)
Lemma report_lines_printed w vs :
  (∀ v, v ∈ vs → is_Some (path.relative_to (vpath v) (ROOT w))) →
  ∃ printed,
    mapM_result (report_line w) vs = Ok printed
    ∧ Forall2 (λ v line, ∃ rel,
                 vpath v = ROOT w ++ rel
                 ∧ line = "- " +:+ path.to_str rel +:+ ":" +:+
                          pretty (lineno v) +:+ ": " +:+ message v)
              vs printed.
Proof.
  induction vs as [|v vs IH]; intros Hall; simpl.
  { exists []. split; [done|constructor]. }
  destruct (Hall v) as [rel Hrel]; [apply list_elem_of_here|].
  destruct IH as (printed & -> & Hlen).
  { intros v' Hv'. apply Hall. by apply list_elem_of_further. }
  unfold report_line at 1. rewrite Hrel. simpl.
  eexists. split; [done|]. constructor; [|done].
  exists rel. split; [|done]. by apply relative_to_Some.
Qed.

(** X15. Printing never fails: once the package directory is found, the
    targets are selected and the checks have returned, [main] returns;
    its exit status is 0 when no violation was collected and 1
    otherwise, and it prints one line for every violation. *)
Theorem main_reports_every_violation w args pkg targets vs :
  pkg_dir w (arg_pkg args) = Ok pkg →
  select_targets w pkg (arg_scope args) = Ok targets →
  collect w pkg targets = Ok vs →
  ∃ printed,
    main w args = Ok (if bool_decide (vs = []) then 0 else 1, printed)
    ∧ length printed = length vs.
Proof.
  intros Hpkg Hsel Hcollect.
  unfold main. rewrite Hpkg. simpl. unfold run. rewrite Hsel. simpl.
  rewrite Hcollect. simpl.
  destruct vs as [|v vs]; [by exists []|].
  destruct (report_lines_printed w (v :: vs)) as (printed & -> & Hlen).
  { by eapply collect_below_root. }
  exists printed. split; [done|]. symmetry. by eapply Forall2_length.
Qed.

Lemma main_reports_every_violation_witness :
  ∃ printed,
    main scenario.unsorted_world (mkArgs None All)
    = Ok (if bool_decide ([scenario.v_bar_Foo; scenario.v_init_private] = [])
          then 0 else 1, printed)
    ∧ length printed = length [scenario.v_bar_Foo; scenario.v_init_private].
Proof.
  apply (main_reports_every_violation scenario.unsorted_world (mkArgs None All)
           scenario.pkg_root
           [scenario.pkg_root ++ ["__init__.py"]]).
  - vm_compute. reflexivity.
  - vm_compute. reflexivity.
  - vm_compute. reflexivity.
Defined.

(** ** The order of the report *)

(** C1, as the code has it.  The violations are collected target after
    target in the order of the target list, for each target in the order
    in which its check finds them, and the report prints them in that
    order, one line for each: nothing sorts them.  Under [--all] the
    target list is sorted and free of duplicates, and neither the exit
    status nor the printed lines of the sweep depend on the order in
    which the file system enumerates the API directory. *)
Theorem report_follows_processing_order w w' args pkg targets vs :
  pkg_dir w (arg_pkg args) = Ok pkg →
  select_targets w pkg (arg_scope args) = Ok targets →
  collect w pkg targets = Ok vs →
  ROOT w = ROOT w' → fs w = fs w' → listdir w = listdir w' →
  (∀ dir, rglob_py w dir ≡ₚ rglob_py w' dir) →
  (∃ vss, Forall2 (λ t vs_t, check_target w pkg [] t = Ok vs_t) targets vss
          ∧ vs = concat vss)
  ∧ (∃ printed,
       main w args = Ok (if bool_decide (vs = []) then 0 else 1, printed)
       ∧ Forall2 (λ v line, ∃ rel,
                    vpath v = ROOT w ++ rel
                    ∧ line = "- " +:+ path.to_str rel +:+ ":" +:+
                             pretty (lineno v) +:+ ": " +:+ message v)
                 vs printed)
  ∧ (arg_scope args = All →
     Sorted path.le targets ∧ NoDup targets
     ∧ ∀ t, t ∈ targets ↔ ∃ c, c ∈ candidates w pkg ∧ t = path.resolve c)
  ∧ main w' (mkArgs (arg_pkg args) All) = main w (mkArgs (arg_pkg args) All).
Proof.
  intros Hpkg Hsel Hcollect HR Hfs Hls Hperm. split; [|split; [|split]].
  - apply collect_concat in Hcollect as (vss & Hall & ->).
    exists vss. split; [|done].
    eapply Forall2_impl; [exact Hall|]. intros t vs_t Ht. simpl in Ht.
    by rewrite collect_single in Ht.
  - unfold main. rewrite Hpkg. simpl. unfold run. rewrite Hsel. simpl.
    rewrite Hcollect. simpl.
    destruct vs as [|v vs]; [exists []; split; [done|constructor]|].
    destruct (report_lines_printed w (v :: vs)) as (printed & -> & Hlines).
    { by eapply collect_below_root. }
    by exists printed.
  - intros Hall. rewrite Hall in Hsel. injection Hsel as <-.
    split; [|split].
    + apply Sorted_merge_sort, _.
    + rewrite merge_sort_Permutation. apply NoDup_remove_dups.
    + intros t. rewrite merge_sort_Permutation, elem_of_remove_dups.
      rewrite list_elem_of_fmap. split; intros (c & ? & ?); by exists c.
  - symmetry. by apply sweep_ignores_enumeration_order.
Qed.

Lemma report_follows_processing_order_witness :
  let w := scenario.mixed_world_ab in
  let targets := [ scenario.pkg_root ++ ["__init__.py"];
                   scenario.pkg_root ++ ["api"; "a.py"];
                   scenario.pkg_root ++ ["api"; "b.py"] ] in
  let vs := [ scenario.v_bar_Foo; scenario.v_init_private;
              scenario.v_api_header "a.py"; scenario.v_api_header "b.py" ] in
  (∃ vss, Forall2 (λ t vs_t, check_target w scenario.pkg_root [] t = Ok vs_t)
                  targets vss
          ∧ vs = concat vss)
  ∧ (∃ printed,
       main w (mkArgs None All)
       = Ok (if bool_decide (vs = []) then 0 else 1, printed)
       ∧ Forall2 (λ v line, ∃ rel,
                    vpath v = ROOT w ++ rel
                    ∧ line = "- " +:+ path.to_str rel +:+ ":" +:+
                             pretty (lineno v) +:+ ": " +:+ message v)
                 vs printed)
  ∧ (All = All →
     Sorted path.le targets ∧ NoDup targets
     ∧ ∀ t, t ∈ targets ↔
            ∃ c, c ∈ candidates w scenario.pkg_root ∧ t = path.resolve c)
  ∧ main scenario.mixed_world_ba (mkArgs None All) = main w (mkArgs None All).
Proof.
  apply (report_follows_processing_order
           scenario.mixed_world_ab scenario.mixed_world_ba (mkArgs None All)
           scenario.pkg_root).
  - vm_compute. reflexivity.
  - vm_compute. reflexivity.
  - vm_compute. reflexivity.
  - reflexivity.
  - reflexivity.
  - reflexivity.
  - intros dir. simpl. apply perm_swap.
Defined.

(** ** The package directory *)

(** X16. Auto-detection returns a directory only when it is the one
    entry of [src/] that is a directory holding an [__init__.py]: every
    other such entry would have made it leave with [SystemExit]. *)
Theorem detected_package_is_unique w pkg :
  detect_pkg_dir w = Ok pkg →
  let src := ROOT w // "src" in
  (∃ n, n ∈ listdir w src ∧ pkg = src ++ [n])
  ∧ is_dir (fs w) pkg = true
  ∧ exists_ (fs w) (pkg // "__init__.py") = true
  ∧ ∀ n, n ∈ listdir w src →
         is_dir (fs w) (src ++ [n]) = true →
         exists_ (fs w) ((src ++ [n]) // "__init__.py") = true →
         src ++ [n] = pkg.
Proof.
  intros Hdetect src. unfold detect_pkg_dir in Hdetect. fold src in Hdetect.
  destruct (negb (exists_ _ _)); [done|]. destruct (negb (is_dir _ _)); [done|].
  destruct (filter _ _) as [|c [|c' cs]] eqn:Hf; try done.
  injection Hdetect as ->.
  assert (∀ q, is_dir (fs w) q && exists_ (fs w) (q // "__init__.py")
               ∧ q ∈ ((λ n, src ++ [n]) <$> listdir w src)
               ↔ q = pkg) as Hiff.
  { intros q. rewrite <-(list_elem_of_singleton q pkg), <-Hf.
    symmetry. exact (list_elem_of_filter _ _ q). }
  destruct (proj2 (Hiff pkg) eq_refl) as [Hp Hin].
  apply andb_prop_elim in Hp as [Hdir Hinit].
  apply list_elem_of_fmap in Hin as (n & Hn & Hin).
  split; [by exists n|]. split; [by apply Is_true_true|].
  split; [by apply Is_true_true|].
  intros n' Hn' Hdir' Hinit'. apply Hiff. split.
  - rewrite Hdir', Hinit'. done.
  - apply list_elem_of_fmap. by exists n'.
Qed.

Lemma detected_package_is_unique_witness :
  let src := ROOT scenario.unsorted_world // "src" in
  (∃ n, n ∈ listdir scenario.unsorted_world src ∧ scenario.pkg_root = src ++ [n])
  ∧ is_dir (fs scenario.unsorted_world) scenario.pkg_root = true
  ∧ exists_ (fs scenario.unsorted_world) (scenario.pkg_root // "__init__.py") = true
  ∧ ∀ n, n ∈ listdir scenario.unsorted_world src →
         is_dir (fs scenario.unsorted_world) (src ++ [n]) = true →
         exists_ (fs scenario.unsorted_world) ((src ++ [n]) // "__init__.py") = true →
         src ++ [n] = scenario.pkg_root.
Proof.
  apply (detected_package_is_unique scenario.unsorted_world scenario.pkg_root).
  vm_compute. reflexivity.
Defined.

(** ** Blank docstrings *)

Lemma only_spaces_app s t :
  only_spaces (s +:+ t) = only_spaces s && only_spaces t.
Proof.
  induction s as [|c s IH]; [done|].
  rewrite string_app_cons. simpl. by rewrite IH, andb_assoc.
Qed.

Lemma only_spaces_replicate n : only_spaces (str.join "" (replicate n " ")) = true.
Proof.
  induction n as [|n IH]; [done|]. simpl replicate.
  destruct n as [|n]; [done|].
  change (str.join "" (" " :: replicate (S n) " "))
    with (" " +:+ "" +:+ str.join "" (replicate (S n) " ")).
  by rewrite !only_spaces_app, IH.
Qed.

Lemma expandtabs_blank col text :
  only_blanks text = true → only_spaces (ast.expandtabs_go col text) = true.
Proof.
  revert col. induction text as [|c text IH]; intros col; simpl; [done|].
  intros [Hc Htext]%andb_prop.
  destruct (Ascii.eqb_spec c "009") as [->|Htab].
  - by rewrite only_spaces_app, only_spaces_replicate, IH.
  - destruct (Ascii.eqb_spec c " ") as [->|]; [|done]. simpl. by apply IH.
Qed.

Lemma only_spaces_nonspace s : only_spaces s = true → has_nonspace s = false.
Proof.
  induction s as [|c s IH]; simpl; [done|].
  intros [Hc Hs]%andb_prop. apply Ascii.eqb_eq in Hc as ->. by apply IH.
Qed.

Lemma split_only_spaces cur s :
  only_spaces s = true →
  str.split_go "010" cur s = [String.rev cur +:+ s].
Proof.
  revert cur. induction s as [|c s IH]; intros cur; simpl.
  - by rewrite string_app_empty_r.
  - intros [Hc Hs]%andb_prop. apply Ascii.eqb_eq in Hc as ->. simpl.
    rewrite IH by done. unfold String.rev. simpl.
    by rewrite (rev_app_append cur " "), string_app_assoc.
Qed.

Lemma cleandoc_blank text : only_blanks text = true → ast.cleandoc text = "".
Proof.
  intros Hblank. unfold ast.cleandoc, ast.expandtabs, str.split.
  pose proof (expandtabs_blank 0 text Hblank) as Hspaces.
  rewrite split_only_spaces by done.
  rewrite string_app_empty_l.
  apply only_spaces_nonspace, lstrip_empty in Hspaces. by rewrite Hspaces.
Qed.

(** X17. A string literal made of spaces and tabs only is no docstring:
    neither a file nor a definition that starts with one counts as
    documented. *)
Theorem blank_docstring_is_missing text rest :
  only_blanks text = true →
  module_docstring_ok
    (ast.mkModule (ast.Expr (ast.Constant (ast.Str text)) :: rest)) = false
  ∧ ∀ name line,
      has_doc (mkDef name line (ast.Expr (ast.Constant (ast.Str text)) :: rest))
      = false.
Proof.
  intros Hblank. unfold module_docstring_ok, has_doc. simpl.
  by rewrite (cleandoc_blank _ Hblank).
Qed.

Lemma blank_docstring_is_missing_witness :
  module_docstring_ok
    (ast.mkModule (ast.Expr (ast.Constant (ast.Str (String "009" "   ")))
                   :: [ast.OtherStmt])) = false
  ∧ ∀ name line,
      has_doc (mkDef name line
                 (ast.Expr (ast.Constant (ast.Str (String "009" "   ")))
                  :: [ast.OtherStmt]))
      = false.
Proof.
  apply (blank_docstring_is_missing (String "009" "   ") [ast.OtherStmt]).
  reflexivity.
Defined.

(** ** Core module paths *)

Lemma replace_go_skip old new k s :
  str.replace_go old new k s = str.replace_go old new 0 (str.drop k s).
Proof.
  revert k. induction s as [|c s IH]; intros [|k]; simpl; done.
Qed.

Lemma prefix_split old s :
  String.prefix old s = true → s = old +:+ str.drop (String.length old) s.
Proof.
  revert old. induction s as [|c s IH]; intros [|a old]; simpl; try done.
  destruct (ascii_dec a c) as [->|]; [|done].
  intros H. rewrite string_app_cons. f_equal. by apply IH.
Qed.

Lemma drop_length n s :
  (String.length (str.drop n s) ≤ String.length s - n)%nat.
Proof.
  revert s. induction n as [|n IH]; intros [|c s]; simpl; try lia. apply IH.
Qed.

Lemma replace_go_match old new c s :
  old ≠ "" →
  String.prefix old (String c s) = true →
  str.replace_go old new 0 (String c s)
  = new +:+ str.replace_go old new 0 (str.drop (String.length old) (String c s)).
Proof.
  intros Hold Hp. cbn [str.replace_go]. rewrite Hp, replace_go_skip.
  destruct old as [|a old]; [done|]. simpl. by rewrite Nat.sub_0_r.
Qed.

(** Replacing a text by itself changes nothing. *)
Lemma replace_same old s : old ≠ "" → str.replace s old old = s.
Proof.
  intros Hold. unfold str.replace.
  remember (String.length s) as n eqn:Hn.
  assert (String.length s ≤ n)%nat as Hle by lia. clear Hn.
  revert s Hle. induction n as [|n IH]; intros [|c s] Hle; simpl in Hle;
    try done; try lia.
  destruct (String.prefix old (String c s)) eqn:Hp.
  - rewrite replace_go_match by done.
    rewrite IH.
    + symmetry. by apply prefix_split.
    + pose proof (drop_length (String.length old) (String c s)) as Hd.
      destruct old; [done|]. simpl in *. lia.
  - cbn [str.replace_go]. rewrite Hp. f_equal. apply IH. lia.
Qed.

(** X18. With the package name [diffusion_core] the substitution leaves
    every path as it is. *)
Theorem substitute_pkg_default paths :
  substitute_pkg paths "diffusion_core" = paths.
Proof.
  unfold substitute_pkg.
  change ("src/" +:+ "diffusion_core" +:+ "/") with "src/diffusion_core/".
  induction paths as [|p paths IH]; [done|].
  rewrite fmap_cons, IH. f_equal. by apply replace_same.
Qed.

Lemma find_absent_cons c s old :
  str.find (String c s) old = -1 →
  String.prefix old (String c s) = false ∧ str.find s old = -1.
Proof.
  cbn [str.find]. destruct (String.prefix old (String c s)); [done|].
  pose proof (find_lower_bound s old).
  destruct (str.find s old =? -1) eqn:Hf; [|lia].
  apply Z.eqb_eq in Hf. done.
Qed.

Lemma replace_absent old new s :
  str.find s old = -1 → str.replace_go old new 0 s = s.
Proof.
  induction s as [|c s IH]; [done|].
  intros [Hp Hs]%find_absent_cons. cbn [str.replace_go]. rewrite Hp.
  f_equal. by apply IH.
Qed.

(** X19. A path that starts with [src/diffusion_core/] and does not
    contain that text again is moved below [src/<pkg_name>/], the rest
    of it unchanged. *)
Theorem substitute_pkg_moves_prefix rest pkg_name :
  str.find rest "src/diffusion_core/" = -1 →
  substitute_pkg ["src/diffusion_core/" +:+ rest] pkg_name
  = ["src/" +:+ pkg_name +:+ "/" +:+ rest].
Proof.
  intros Habsent. unfold substitute_pkg. rewrite fmap_cons, fmap_nil. f_equal.
  unfold str.replace. set (old := "src/diffusion_core/").
  change (old +:+ rest) with (String "s" ("rc/diffusion_core/" +:+ rest)).
  rewrite replace_go_match; [|done|apply (prefix_app old rest)].
  change (String "s" ("rc/diffusion_core/" +:+ rest)) with (old +:+ rest).
  rewrite drop_app by done.
  change (str.drop (String.length old) old) with "".
  rewrite string_app_empty_l, replace_absent by done.
  by rewrite !string_app_assoc.
Qed.

Lemma substitute_pkg_moves_prefix_witness :
  substitute_pkg ["src/diffusion_core/" +:+ "eval/metrics/__init__.py"] "pkg"
  = ["src/" +:+ "pkg" +:+ "/" +:+ "eval/metrics/__init__.py"].
Proof.
  apply (substitute_pkg_moves_prefix "eval/metrics/__init__.py" "pkg").
  reflexivity.
Defined.

(** ** Module resolution, continued *)

Lemma rev_app_rev_app s a b :
  String.rev_app (String.rev_app s a) b = String.rev_app a (s +:+ b).
Proof.
  revert a b. induction s as [|c s IH]; intros a b; simpl; [done|].
  by rewrite IH.
Qed.

Lemma rev_rev s : String.rev (String.rev s) = s.
Proof.
  unfold String.rev. rewrite rev_app_rev_app. simpl. apply string_app_empty_r.
Qed.

Lemma split_go_nosep sep s cur rest :
  no_char sep s = true →
  str.split_go sep cur (s +:+ rest) = str.split_go sep (String.rev_app s cur) rest.
Proof.
  revert cur. induction s as [|c s IH]; intros cur; simpl; [done|].
  intros [Hc Hs]%andb_prop. apply negb_true_iff in Hc.
  rewrite Hc. by apply IH.
Qed.

Lemma join_cons sep p ps :
  ps ≠ [] → str.join sep (p :: ps) = p +:+ sep +:+ str.join sep ps.
Proof. by destruct ps. Qed.

(** Splitting what was joined gives the pieces back. *)
Lemma split_join sep segs :
  segs ≠ [] → forallb (no_char sep) segs = true →
  str.split (str.join (String sep "") segs) sep = segs.
Proof.
  induction segs as [|p segs IH]; [done|]. intros _ [Hp Hsegs]%andb_prop.
  unfold str.split in *. destruct segs as [|q segs].
  - simpl str.join. rewrite <-(string_app_empty_r p) at 1.
    rewrite split_go_nosep by done. simpl. f_equal. apply rev_rev.
  - rewrite join_cons by done. rewrite split_go_nosep by done.
    rewrite string_app_cons, string_app_empty_l. cbn [str.split_go].
    rewrite Ascii.eqb_refl. f_equal; [apply rev_rev|]. by apply IH.
Qed.

Lemma filter_all {A} (f : A → bool) l :
  forallb f l = true → List.filter f l = l.
Proof.
  induction l as [|x l IH]; simpl; [done|].
  intros [-> Hl]%andb_prop. f_equal. by apply IH.
Qed.

Lemma forallb_impl {A} (f g : A → bool) l :
  (∀ x, f x = true → g x = true) → forallb f l = true → forallb g l = true.
Proof.
  intros Hfg. induction l as [|x l IH]; simpl; [done|].
  intros [Hx Hl]%andb_prop. by rewrite (Hfg x Hx), IH.
Qed.

(** Components joined by slashes are the parts of the joined text. *)
Lemma parts_of_join segs :
  segs ≠ [] → forallb is_component segs = true →
  path.parts_of (str.join "/" segs) = segs.
Proof.
  intros Hne Hsegs. unfold path.parts_of. rewrite split_join; [|done|].
  - apply filter_all. revert Hsegs. apply forallb_impl. intros s.
    unfold is_component. intros [[H1 H2]%andb_prop _]%andb_prop.
    rewrite negb_orb. by rewrite H1, H2.
  - revert Hsegs. apply forallb_impl. intros s.
    unfold is_component. by intros [_ H]%andb_prop.
Qed.

Lemma no_char_app c s t : no_char c (s +:+ t) = no_char c s && no_char c t.
Proof.
  induction s as [|a s IH]; [done|].
  rewrite string_app_cons. simpl. by rewrite IH, andb_assoc.
Qed.

Lemma is_segment_component s : is_segment s = true → is_component s = true.
Proof.
  unfold is_segment, is_component.
  intros [[H1 H2]%andb_prop H3]%andb_prop. rewrite H1, H3. simpl.
  rewrite andb_true_r. apply negb_true_iff, bool_decide_eq_false. by intros ->.
Qed.

Lemma is_segment_py s : is_segment s = true → is_component (s +:+ ".py") = true.
Proof.
  unfold is_segment, is_component.
  intros [[H1 H2]%andb_prop H3]%andb_prop.
  rewrite no_char_app, H3. simpl. rewrite andb_true_r.
  apply negb_true_iff, bool_decide_eq_false in H1.
  destruct s as [|a s]; [done|]. rewrite string_app_cons.
  apply andb_true_iff. split; apply negb_true_iff, bool_decide_eq_false; [done|].
  intros [= _ Hs]. by destruct s.
Qed.

Lemma join_suffix segs suffix :
  segs ≠ [] →
  str.join "/" segs +:+ suffix
  = str.join "/" (removelast segs ++ [List.last segs "" +:+ suffix]).
Proof.
  induction segs as [|p segs IH]; [done|]. intros _.
  destruct segs as [|q segs]; [done|].
  rewrite join_cons by done. rewrite !string_app_assoc, IH by done.
  change (removelast (p :: q :: segs)) with (p :: removelast (q :: segs)).
  change (List.last (p :: q :: segs) "") with (List.last (q :: segs) "").
  rewrite <-app_comm_cons, join_cons; [done|]. by destruct (removelast _).
Qed.

Lemma forallb_removelast {A} (f : A → bool) l :
  forallb f l = true → forallb f (removelast l) = true.
Proof.
  induction l as [|x l IH]; [done|]. intros [Hx Hl]%andb_prop.
  destruct l as [|y l]; [done|].
  change (removelast (x :: y :: l)) with (x :: removelast (y :: l)).
  cbn [forallb]. rewrite Hx. by apply IH.
Qed.

Lemma forallb_last {A} (f : A → bool) l d :
  l ≠ [] → forallb f l = true → f (List.last l d) = true.
Proof.
  induction l as [|x l IH]; [done|]. intros _ [Hx Hl]%andb_prop.
  destruct l as [|y l]; [done|]. by apply IH.
Qed.

(** X20. For a dotted path of plain segments the candidates are the
    module file [<pkg>/a/b.py] and the package file
    [<pkg>/a/b/__init__.py]; the module file is taken when it exists,
    the package file otherwise, and nothing when neither exists. *)
Theorem resolve_dotted_path fs pkg segs :
  segs ≠ [] →
  forallb is_segment segs = true →
  resolve_module_file fs pkg (str.join "." segs) =
  if exists_ fs (module_file_path pkg segs)
  then Some (module_file_path pkg segs)
  else if exists_ fs (package_init_path pkg segs)
       then Some (package_init_path pkg segs)
       else None.
Proof.
  intros Hne Hsegs.
  assert (forallb is_component segs = true) as Hcomp.
  { revert Hsegs. apply forallb_impl, is_segment_component. }
  assert (str.join "." segs ≠ "") as Hdotted.
  { destruct segs as [|p segs]; [done|]. apply join_nonempty.
    simpl in Hsegs. apply andb_prop in Hsegs as [Hp _]. unfold is_segment in Hp.
    apply andb_prop in Hp as [[Hp _]%andb_prop _].
    by apply negb_true_iff, bool_decide_eq_false in Hp. }
  assert (str.join "/" segs ≠ "") as Hslashed.
  { destruct segs as [|p segs]; [done|]. apply join_nonempty.
    simpl in Hcomp. apply andb_prop in Hcomp as [Hp _]. unfold is_component in Hp.
    apply andb_prop in Hp as [[Hp _]%andb_prop _].
    by apply negb_true_iff, bool_decide_eq_false in Hp. }
  unfold resolve_module_file.
  rewrite (bool_decide_eq_false_2 _ Hdotted).
  rewrite (split_join "." segs Hne).
  2:{ revert Hsegs. apply forallb_impl. intros s. unfold is_segment.
      by intros [[_ H]%andb_prop _]%andb_prop. }
  rewrite (parts_of_join segs Hne Hcomp).
  rewrite (div_relative pkg (path.to_str segs +:+ ".py")).
  2:{ apply to_str_relative, List.Forall_forall. by apply List.forallb_forall. }
  rewrite (div_relative (pkg ++ segs) "__init__.py" eq_refl).
  assert (path.to_str segs = str.join "/" segs) as -> by by destruct segs.
  rewrite (bool_decide_eq_false_2 _ Hslashed).
  rewrite (join_suffix segs ".py" Hne).
  rewrite parts_of_join.
  - change (path.parts_of "__init__.py") with ["__init__.py"].
    unfold module_file_path, package_init_path. by rewrite <-!app_assoc.
  - by destruct (removelast segs).
  - rewrite forallb_app. apply andb_true_iff. split.
    + by apply forallb_removelast.
    + simpl. rewrite andb_true_r. apply is_segment_py. by apply forallb_last.
Qed.

Lemma resolve_dotted_path_witness :
  resolve_module_file
    (scenario.fs_of [ (scenario.pkg_root ++ ["api"; "metrics.py"], scenario.py [] []);
                      (scenario.pkg_root ++ ["api"; "metrics"; "__init__.py"],
                       scenario.py [] []) ])
    scenario.pkg_root (str.join "." ["api"; "metrics"])
  = Some (scenario.pkg_root ++ ["api"; "metrics.py"]).
Proof.
  apply (resolve_dotted_path
           (scenario.fs_of
              [ (scenario.pkg_root ++ ["api"; "metrics.py"], scenario.py [] []);
                (scenario.pkg_root ++ ["api"; "metrics"; "__init__.py"],
                 scenario.py [] []) ])
           scenario.pkg_root ["api"; "metrics"]).
  - done.
  - reflexivity.
Defined.

(** ** Tier routing *)





(** ** Files outside [src/] *)

Lemma replace_moves_prefix old new rest :
  old ≠ "" → str.find rest old = -1 →
  str.replace (old +:+ rest) old new = new +:+ rest.
Proof.
  intros Hold Habsent. unfold str.replace.
  destruct old as [|a old]; [done|]. rewrite string_app_cons.
  rewrite replace_go_match; [|done|apply (prefix_app (String a old) rest)].
  rewrite <-string_app_cons, drop_app by done.
  assert (str.drop (String.length (String a old)) (String a old) = "") as ->.
  { clear. generalize (String a old). intros s. induction s; simpl; done. }
  by rewrite string_app_empty_l, replace_absent.
Qed.

(** Every core path starts with [src/]. *)
Lemma core_paths_below_src pkg rel :
  rel ∈ core_paths pkg → ∃ rest, rel = "src" +:+ "/" +:+ rest.
Proof.
  unfold core_paths, substitute_pkg. rewrite elem_of_list_to_set.
  intros (p & -> & Hp)%list_elem_of_fmap.
  assert (∃ rest, p = "src/diffusion_core/" +:+ rest
                  ∧ str.find rest "src/diffusion_core/" = -1) as (rest & -> & Hrest).
  { unfold CORE_MODULES in Hp. repeat (apply elem_of_cons in Hp as [->|Hp]).
    all: try by (eexists; split; [reflexivity|reflexivity]).
    by apply elem_of_nil in Hp. }
  rewrite replace_moves_prefix by done.
  exists (pkg_name pkg +:+ "/" +:+ rest). by rewrite !string_app_assoc.
Qed.

Lemma app_sep_inj sep c d x y :
  no_char sep c = true → no_char sep d = true →
  c +:+ String sep x = d +:+ String sep y → c = d.
Proof.
  revert d. induction c as [|a c IH]; intros [|b d]; simpl; try done.
  - intros _ [Hb _]%andb_prop [= <- _]. by rewrite Ascii.eqb_refl in Hb.
  - intros [Ha _]%andb_prop _ [= -> _]. by rewrite Ascii.eqb_refl in Ha.
  - intros [_ Hc]%andb_prop [_ Hd]%andb_prop [= -> Heq]. f_equal. by eapply IH.
Qed.

(** A relative path that starts with [src/] has [src] as first
    component. *)
Lemma rel_below_src c ps rest :
  no_char "/" c = true →
  path.to_str (c :: ps) = "src" +:+ "/" +:+ rest → c = "src".
Proof.
  intros Hc. unfold path.to_str. destruct ps as [|q ps].
  - simpl. intros ->. done.
  - rewrite join_cons by done. by apply app_sep_inj.
Qed.

Lemma relative_to_app_both (r a b : Path) :
  path.relative_to (r ++ a) (r ++ b) = path.relative_to a b.
Proof.
  induction r as [|x r IH]; simpl; [done|]. by rewrite bool_decide_eq_true_2.
Qed.


Lemma check_target_outside_src w pkg acc t :
  (∃ rest, pkg = ROOT w ++ "src" :: rest) →
  outside_src (ROOT w) t = true →
  check_target w pkg acc t = Ok acc.
Proof.
  intros [r1 ->]. unfold outside_src, check_target.
  destruct (path.relative_to t (ROOT w)) as [[|c ps]|] eqn:Ht; [done| |done].
  intros [Hsrc Hc]%andb_prop.
  apply negb_true_iff, bool_decide_eq_false in Hsrc.
  rewrite api_dir_eq, init_path_eq.
  rewrite <-!app_assoc, relative_to_app.
  rewrite bool_decide_eq_false_2.
  2:{ intros Heq. apply Hsrc. eapply (rel_below_src c ps); [done|].
      rewrite Heq. simpl app. unfold path.to_str.
      rewrite join_cons; [reflexivity|]. by destruct r1. }
  assert (path.in_parents (ROOT w ++ ("src" :: r1) ++ ["api"]) t = false) as ->.
  { unfold path.in_parents.
    assert (∃ rest, t = ROOT w ++ c :: ps ∧ rest = ps) as (_ & -> & _).
    { exists ps. split; [|done]. clear -Ht. revert t Ht.
      induction (ROOT w) as [|x r IH]; intros t; simpl.
      - by intros [= ->].
      - destruct t as [|y t]; [done|]. case_bool_decide; [|done].
        subst. intros Ht. f_equal. by apply IH. }
    rewrite relative_to_app_both. simpl. by rewrite bool_decide_eq_false_2. }
  rewrite andb_false_r.
  rewrite bool_decide_eq_false_2; [done|].
  intros [rest Hrest]%core_paths_below_src. apply Hsrc.
  by eapply (rel_below_src c ps).
Qed.

(** X22. With auto-detection, or with a [--pkg] that is not an absolute
    path, targets outside [src/] are passed over: a run whose targets
    all lie outside the repository or below another top-level directory
    ends with exit status 0 and an empty report, whatever the files
    contain (they may be absent or fail to parse). *)
Theorem files_outside_src_unchecked w args pkg targets :
  str.startswith (default "" (arg_pkg args)) "/" = false →
  pkg_dir w (arg_pkg args) = Ok pkg →
  select_targets w pkg (arg_scope args) = Ok targets →
  forallb (outside_src (ROOT w)) targets = true →
  main w args = Ok (0, []).
Proof.
  intros Hrel Hpkg Hsel Hout.
  pose proof (pkg_dir_below_src _ _ _ Hrel Hpkg) as Hbelow.
  unfold main. rewrite Hpkg. simpl. unfold run. rewrite Hsel. simpl.
  assert (collect w pkg targets = Ok []) as ->; [|done].
  clear Hsel. unfold collect. generalize (@nil Violation) as acc.
  induction targets as [|t targets IH]; intros acc; simpl; [done|].
  simpl in Hout. apply andb_prop in Hout as [Ht Hout].
  rewrite check_target_outside_src by done. by apply IH.
Qed.

Lemma files_outside_src_unchecked_witness :
  let w := with_staged scenario.unsorted_world
             ["tests/test_x.py"; "README.md"; "tools/enforce_docstrings.py"] in
  main w (mkArgs None Staged) = Ok (0, []).
Proof.
  apply (files_outside_src_unchecked _ (mkArgs None Staged) scenario.pkg_root
           [["repo"; "tests"; "test_x.py"];
            ["repo"; "tools"; "enforce_docstrings.py"]]);
    vm_compute; reflexivity.
Defined.
